(** * Zenkai-POML: the parse / substitute / render pipeline

  A shallow embedding of [zenkai_poml.py] (classes [POMLParser] and
  [ZenkaiPOMLProcessor]) and the properties its specification states.

  Text is [string]; a character is a code point below 256.  Python
  dictionaries are [gmap]s, exceptions are the [Raises] branch of
  [outcome], and everything the module obtains from outside (the XML
  parser, [json], the file system, the optional packages) is a field of
  the record [World]. *)

From Stdlib Require Import ZArith Ascii String DecimalString.
From stdpp Require Import gmap strings list fin_maps.

#[local] Set Warnings "-register-all,-clear-no-such-hyp".

(** * The program *)

(** ** Strings *)

Module Str.

(** ['-' * n] and the like *)
Fixpoint replicate (n : nat) (c : ascii) : string :=
  match n with
  | 0 => ""
  | S n => String c (replicate n c)
  end.

(** [sep.join(parts)] *)
Fixpoint join (sep : string) (parts : list string) : string :=
  match parts with
  | [] => ""
  | [p] => p
  | p :: ps => p +:+ sep +:+ join sep ps
  end.

(** [needle in s] *)
Fixpoint contains (needle s : string) : bool :=
  String.prefix needle s ||
  match s with
  | "" => false
  | String _ s' => contains needle s'
  end.

Definition is_empty (s : string) : bool :=
  match s with "" => true | _ => false end.

(** every character of [s] is in the class *)
Fixpoint all (cls : ascii → bool) (s : string) : bool :=
  match s with
  | "" => true
  | String c s' => cls c && all cls s'
  end.

(** [s] is empty or starts outside the class *)
Definition stops (cls : ascii → bool) (s : string) : bool :=
  match s with
  | "" => true
  | String c _ => negb (cls c)
  end.

(** [str.isspace] on one character: the code points below 256 that
    Python classes as whitespace.  The same class is the regular
    expression [\s]. *)
Definition isspace (c : ascii) : bool :=
  let n := N_of_ascii c in
  ((9 <=? n) && (n <=? 13) || (28 <=? n) && (n <=? 32)
   || (n =? 133) || (n =? 160))%N.

(** the regular expression class [\w]: [str.isalnum] or an underscore *)
Definition isword (c : ascii) : bool :=
  let n := N_of_ascii c in
  ((48 <=? n) && (n <=? 57) || (65 <=? n) && (n <=? 90)
   || (97 <=? n) && (n <=? 122) || (n =? 95)
   || (n =? 170) || (n =? 178) || (n =? 179) || (n =? 181)
   || (n =? 185) || (n =? 186) || (188 <=? n) && (n <=? 190)
   || (192 <=? n) && (n <=? 214) || (216 <=? n) && (n <=? 246)
   || (248 <=? n))%N.

Fixpoint lstrip (s : string) : string :=
  match s with
  | "" => ""
  | String c s' => if isspace c then lstrip s' else s
  end.

Fixpoint rstrip (s : string) : string :=
  match s with
  | "" => ""
  | String c s' =>
      let r := rstrip s' in
      if isspace c && is_empty r then "" else String c r
  end.

(** [s.strip()] *)
Definition strip (s : string) : string := rstrip (lstrip s).

Definition lower_char (c : ascii) : ascii :=
  let n := N_of_ascii c in
  if ((65 <=? n) && (n <=? 90)
      || (192 <=? n) && (n <=? 222) && negb (n =? 215))%N
  then ascii_of_N (n + 32) else c.

(** [s.lower()] *)
Fixpoint lower (s : string) : string :=
  match s with
  | "" => ""
  | String c s' => String (lower_char c) (lower s')
  end.

#[global] Arguments isspace : simpl never.

End Str.

(** ** Regular expressions

  The two patterns of the module are sequences of single-character
  classes, greedy repetitions of a class and the brackets of group 1.
  [re_match] is the backtracking matcher anchored at the head of the
  text: a greedy repetition first takes one more character and falls
  back to the rest of the pattern when that fails. *)

Module Re.

Inductive atom :=
| Chr (cls : ascii → bool)     (* one character of the class *)
| Star (cls : ascii → bool)    (* cls*  *)
| GOpen                        (* (     *)
| GClose.                      (* )     *)

Definition regex := list atom.

Definition lit (c : ascii) : atom := Chr (Ascii.eqb c).
Definition plus (cls : ascii → bool) : regex := [Chr cls; Star cls].
Definition non (c : ascii) : ascii → bool := λ d, negb (Ascii.eqb c d).

(** what a match reports: the text matched, group 1, the text left *)
Record found := Found { whole : string; group1 : string; rest : string }.

Definition take (c : ascii) (ingroup : bool) (f : found) : found :=
  {| whole := String c (whole f);
     group1 := if ingroup then String c (group1 f) else group1 f;
     rest := rest f |}.

Fixpoint star_loop (cls : ascii → bool) (k : string → option found)
    (ingroup : bool) (s : string) : option found :=
  match s with
  | String c s' =>
      if cls c then
        match star_loop cls k ingroup s' with
        | Some f => Some (take c ingroup f)
        | None => k s
        end
      else k s
  | "" => k s
  end.

Fixpoint re_match (r : regex) (ingroup : bool) (s : string) : option found :=
  match r with
  | [] => Some (Found "" "" s)
  | Chr cls :: r' =>
      match s with
      | String c s' =>
          if cls c then take c ingroup <$> re_match r' ingroup s' else None
      | "" => None
      end
  | Star cls :: r' => star_loop cls (re_match r' ingroup) ingroup s
  | GOpen :: r' => re_match r' true s
  | GClose :: r' => re_match r' false s
  end.

(** [re.sub(pattern, repl, text)]: scan left to right; where the pattern
    matches, emit [repl] of the match and go on after it, elsewhere copy
    the character.  [skip] counts the characters of the current match
    still to be passed over. *)
Fixpoint sub_from (r : regex) (repl : string → string) (skip : nat)
    (s : string) : string :=
  match skip with
  | S k =>
      match s with
      | String _ s' => sub_from r repl k s'
      | "" => ""
      end
  | 0 =>
      match re_match r false s with
      | Some f =>
          repl (group1 f) +:+
          match s with
          | String c s' =>
              match String.length (whole f) with
              | 0 => String c (sub_from r repl 0 s')
              | S k => sub_from r repl k s'
              end
          | "" => ""
          end
      | None =>
          match s with
          | String c s' => String c (sub_from r repl 0 s')
          | "" => ""
          end
      end
  end.

Definition sub (r : regex) (repl : string → string) (s : string) : string :=
  sub_from r repl 0 s.

(** [re.findall(pattern, text)] for a pattern with one group: group 1 of
    the matches [sub] replaces, in order. *)
Fixpoint findall_from (r : regex) (skip : nat) (s : string) : list string :=
  match skip with
  | S k =>
      match s with
      | String _ s' => findall_from r k s'
      | "" => []
      end
  | 0 =>
      match re_match r false s with
      | Some f =>
          group1 f ::
          match s with
          | String c s' =>
              match String.length (whole f) with
              | 0 => findall_from r 0 s'
              | S k => findall_from r k s'
              end
          | "" => []
          end
      | None =>
          match s with
          | String c s' => findall_from r 0 s'
          | "" => []
          end
      end
  end.

Definition findall (r : regex) (s : string) : list string :=
  findall_from r 0 s.

(** [take] over a whole prefix *)
Fixpoint takes (p : string) (ingroup : bool) (f : found) : found :=
  match p with
  | "" => f
  | String c p' => take c ingroup (takes p' ingroup f)
  end.

End Re.

(** ** Values of the variable scope *)

(** What a scope can hold: the values [json.loads] produces and the
    strings a [let] element stores.  [PObj] is any other object (a float,
    a list, a nested dictionary), given by its [str()] rendering. *)
Inductive pyval :=
| PStr (s : string)
| PInt (z : Z)
| PBool (b : bool)
| PNone
| PObj (rendering : string).

(** [str(v)] *)
Definition py_str (v : pyval) : string :=
  match v with
  | PStr s => s
  | PInt z => NilZero.string_of_int (Z.to_int z)
  | PBool true => "True"
  | PBool false => "False"
  | PNone => "None"
  | PObj r => r
  end.

(** ** Variable substitution *)

(** [r'\{\{\s*([^}]+)\s*\}\}'] *)
Definition var_pattern : Re.regex :=
  [Re.lit "{"%char; Re.lit "{"%char; Re.Star Str.isspace; Re.GOpen]
  ++ Re.plus (Re.non "}"%char)
  ++ [Re.GClose; Re.Star Str.isspace; Re.lit "}"%char; Re.lit "}"%char].

(** the inner function [replace_var] of [_substitute_variables] *)
Definition replace_var (variables : gmap string pyval) (group : string)
    : string :=
  let var_name := Str.strip group in
  py_str (default (PStr ("{{" +:+ var_name +:+ "}}")) (variables !! var_name)).

Definition _substitute_variables (variables : gmap string pyval)
    (text : string) : string :=
  Re.sub var_pattern (replace_var variables) text.

(** the names of the placeholders of a text, in order: what [replace_var]
    looks up *)
Definition placeholders (text : string) : list string :=
  Str.strip <$> Re.findall var_pattern text.

(** ** Exceptions *)

Inductive exn_class :=
| ParseError            (* xml.etree.ElementTree.ParseError *)
| JSONDecodeError       (* json.JSONDecodeError *)
| UnicodeDecodeError
| OtherException.       (* any other subclass of Exception *)

(** an exception object; [exn_msg] is its [str()] *)
Record exn := Exn { exn_cls : exn_class; exn_msg : string }.

Inductive outcome (A : Type) :=
| Returns (a : A)
| Raises (e : exn).
Arguments Returns {A} a.
Arguments Raises {A} e.

Definition is_class (c : exn_class) (e : exn) : bool :=
  match c, exn_cls e with
  | ParseError, ParseError
  | JSONDecodeError, JSONDecodeError
  | UnicodeDecodeError, UnicodeDecodeError
  | OtherException, OtherException => true
  | _, _ => false
  end.

(** ** The markup tree *)

(** an [xml.etree.ElementTree.Element]: tag, attributes, the text before
    the first child, the children *)
Inductive Element :=
| Elem (tag : string) (attrib : gmap string string) (text : option string)
       (children : list Element).

Definition el_tag (e : Element) : string := let 'Elem t _ _ _ := e in t.
Definition el_attrib (e : Element) : gmap string string :=
  let 'Elem _ a _ _ := e in a.
Definition el_text (e : Element) : option string := let 'Elem _ _ t _ := e in t.
Definition el_children (e : Element) : list Element :=
  let 'Elem _ _ _ c := e in c.

(** [element.get(key, default)] *)
Definition el_get (e : Element) (key dflt : string) : string :=
  default dflt (el_attrib e !! key).

(** [element.findall(tag)]: the direct children with that tag *)
Definition el_findall (e : Element) (tag : string) : list Element :=
  filter (λ c, el_tag c = tag) (el_children e).

(** [element.find(tag)]: the first of them, or [None] *)
Definition el_find (e : Element) (tag : string) : option Element :=
  head (el_findall e tag).

(** [x or ''] for an optional text *)
Definition text_or_empty (t : option string) : string := default "" t.

(** ** JSON *)

(** a value handed to [json.dumps] *)
Inductive json :=
| JBool (b : bool)
| JNum (n : Z)
| JString (s : string)
| JArray (l : list json)
| JObject (fields : list (string * json)).


(** what [json.loads] made of the variables text: an object, [None], or
    any other value, which is given by what [dict.update] does with it
    (a [TypeError] or [ValueError] for a scalar, the pairs for a sequence
    of pairs) *)
Inductive decoded :=
| DDict (d : gmap string pyval)
| DNone
| DOther (update : outcome (list (string * pyval))).

(** ** The world outside the module *)

(** a message of the result of the POML SDK *)
Record sdk_message := Message { speaker : string; content : string }.

Record World := {
  (* does [import m] succeed *)
  importable : string → bool;
  (* [ET.fromstring] *)
  ET_fromstring : string → outcome Element;
  (* [json.loads] and [json.dumps] (with its [indent]) *)
  json_loads : string → outcome decoded;
  json_dumps : option nat → json → string;
  (* the text of the error of [jsonschema.validate] on a non-object *)
  validation_error : decoded → string;
  (* [poml.poml(text, context=..., format=...)]: its messages *)
  poml_poml : string → decoded → outcome (list sdk_message);
  (* [os.path.exists] and the extension [os.path.splitext(p)[1]] *)
  path_exists : string → bool;
  path_ext : string → string;
  (* [open(path, 'r', encoding=enc).read()] *)
  read_text : string → string → outcome string;
  (* [pd.read_csv(p).to_string(index=False)], the same for [read_excel] *)
  pd_read_csv : string → outcome string;
  pd_read_excel : string → outcome string;
  (* [list(csv.reader(f))] of the opened file *)
  csv_rows : string → outcome (list (list string));
  (* the rows of the active sheet of [openpyxl.load_workbook(p)], a cell
     being [None] or its [str()] *)
  openpyxl_rows : string → outcome (list (list (option string)));
  (* [page.extract_text()] of the pages of [PyPDF2.PdfReader] *)
  pdf_pages : string → outcome (list string)
}.

(** ** Optional packages *)

(** the keys of [DEPENDENCIES_AVAILABLE], each with the module whose import
    sets it, in the order the module fills the dictionary *)
Definition dependency_modules : list (string * string) :=
  [("poml", "poml"); ("pandas", "pandas"); ("pillow", "PIL");
   ("pypdf2", "PyPDF2"); ("requests", "requests");
   ("jsonschema", "jsonschema")].

Definition dependency_flags (w : World) : list (string * bool) :=
  (λ km, (km.1, importable w km.2)) <$> dependency_modules.

Definition DEPENDENCIES_AVAILABLE (w : World) : gmap string bool :=
  list_to_map (dependency_flags w).

(** [DEPENDENCIES_AVAILABLE.get(key, False)] *)
Definition available (w : World) (key : string) : bool :=
  default false (DEPENDENCIES_AVAILABLE w !! key).

(** ** External content *)

Definition nl : string := String "010"%char "".

(** [str(n)] of a count *)
Definition str_of_nat (n : nat) : string := NilZero.string_of_uint (Nat.to_uint n).

Definition nonempty {A} (l : list A) : bool :=
  match l with [] => false | _ => true end.

(** ['-' * len(line)] *)
Definition dashes (line : string) : string :=
  Str.replicate (String.length line) "-"%char.

Definition _load_csv_file (w : World) (file_path : string) : string :=
  let builtin :=
    match csv_rows w file_path with
    | Returns (headers :: data_rows) =>
        let line0 := Str.join " | " headers in
        Str.join nl (line0 :: dashes line0 :: (Str.join " | " <$> data_rows))
    | Returns [] => "Empty CSV file"
    | Raises e => "Error loading CSV: " +:+ exn_msg e
    end in
  if available w "pandas" then
    match pd_read_csv w file_path with
    | Returns s => s
    | Raises _ => builtin
    end
  else builtin.

Definition _load_excel_file (w : World) (file_path : string) : string :=
  if negb (available w "openpyxl") then
    "Excel processing requires openpyxl. Install with: pip install openpyxl"
  else
    let loaded :=
      if available w "pandas" then pd_read_excel w file_path
      else
        match openpyxl_rows w file_path with
        | Returns cells =>
            match (λ row : list (option string), text_or_empty <$> row) <$> cells with
            | row0 :: rows =>
                let line0 := Str.join " | " row0 in
                Returns (Str.join nl
                           (line0 :: dashes line0 :: (Str.join " | " <$> rows)))
            | [] => Returns "Empty Excel file"
            end
        | Raises e => Raises e
        end in
    match loaded with
    | Returns s => s
    | Raises e => "Error loading Excel file: " +:+ exn_msg e
    end.

Definition _load_table_from_file (w : World) (file_path : string)
    : outcome string :=
  let file_ext := Str.lower (path_ext w file_path) in
  if bool_decide (file_ext = ".csv") then Returns (_load_csv_file w file_path)
  else if bool_decide (file_ext ∈ [".xlsx"; ".xls"])
  then Returns (_load_excel_file w file_path)
  else read_text w file_path "utf-8".

Definition _load_pdf_file (w : World) (file_path : string) : string :=
  if negb (available w "pypdf2") then
    "PDF processing requires PyPDF2. Install with: pip install PyPDF2"
  else
    match pdf_pages w file_path with
    | Returns text_parts => Str.join (nl +:+ nl) text_parts
    | Raises e => "Error loading PDF: " +:+ exn_msg e
    end.

Definition _load_document_from_file (w : World) (file_path : string)
    : outcome string :=
  let file_ext := Str.lower (path_ext w file_path) in
  if bool_decide (file_ext = ".pdf") then Returns (_load_pdf_file w file_path)
  else
    match read_text w file_path "utf-8" with
    | Returns s => Returns s
    | Raises e =>
        if is_class UnicodeDecodeError e then read_text w file_path "latin-1"
        else Raises e
    end.

(** ** The Prompt Model *)

Record example := Example_ { ex_input : string; ex_output : string }.

Record document :=
  Document { doc_src : string; doc_title : string; doc_content : string }.

Record table := Table {
  tbl_title : string;
  tbl_src : string;
  tbl_headers : list string;
  tbl_rows : list (list string);
  tbl_content : string
}.

Record image := Image { img_src : string; img_alt : string; img_title : string }.

Record raw_element := Raw {
  raw_tag : string;
  raw_text : string;
  raw_attributes : gmap string string;
  raw_children : list string
}.

(** The dictionary [parsed_data].  Its entry ['variables'] is the parser's
    own dictionary [self.variables], not a copy: the model keeps the scope
    in the field [variables] alone, where [_process_element] reads and
    writes it. *)
Record parsed_data := ParsedData {
  error : option string;
  role : string;
  task : string;
  examples : list example;
  output_format : string;
  documents : list document;
  tables : list table;
  images : list image;
  variables : gmap string pyval;
  sdk_used : string;
  raw_elements : list raw_element
}.

Definition with_role (x : string) (pd : parsed_data) : parsed_data :=
  let 'ParsedData e _ t ex o d tb im v s raw := pd in
  ParsedData e x t ex o d tb im v s raw.
Definition with_task (x : string) (pd : parsed_data) : parsed_data :=
  let 'ParsedData e r _ ex o d tb im v s raw := pd in
  ParsedData e r x ex o d tb im v s raw.
Definition with_examples (x : list example) (pd : parsed_data) : parsed_data :=
  let 'ParsedData e r t _ o d tb im v s raw := pd in
  ParsedData e r t x o d tb im v s raw.
Definition with_output_format (x : string) (pd : parsed_data) : parsed_data :=
  let 'ParsedData e r t ex _ d tb im v s raw := pd in
  ParsedData e r t ex x d tb im v s raw.
Definition with_documents (x : list document) (pd : parsed_data) : parsed_data :=
  let 'ParsedData e r t ex o _ tb im v s raw := pd in
  ParsedData e r t ex o x tb im v s raw.
Definition with_tables (x : list table) (pd : parsed_data) : parsed_data :=
  let 'ParsedData e r t ex o d _ im v s raw := pd in
  ParsedData e r t ex o d x im v s raw.
Definition with_images (x : list image) (pd : parsed_data) : parsed_data :=
  let 'ParsedData e r t ex o d tb _ v s raw := pd in
  ParsedData e r t ex o d tb x v s raw.
Definition with_variables (x : gmap string pyval) (pd : parsed_data)
    : parsed_data :=
  let 'ParsedData e r t ex o d tb im _ s raw := pd in
  ParsedData e r t ex o d tb im x s raw.
Definition with_raw_elements (x : list raw_element) (pd : parsed_data)
    : parsed_data :=
  let 'ParsedData e r t ex o d tb im v s _ := pd in
  ParsedData e r t ex o d tb im v s x.

(** ** The Markup Normalizer *)

(** the pattern of a self-closing tag: [<], group 1 made of [\w+] and
    then any run of characters other than [>], and [/>] *)
Definition self_closing_pattern : Re.regex :=
  [Re.lit "<"%char; Re.GOpen]
  ++ Re.plus Str.isword
  ++ [Re.Star (Re.non ">"%char); Re.GClose; Re.lit "/"%char; Re.lit ">"%char].

(** the template [r'<\1></\1>'] *)
Definition expand_self_closing (group : string) : string :=
  "<" +:+ group +:+ "></" +:+ group +:+ ">".

Definition _preprocess_poml (poml_text : string) : string :=
  let poml_text :=
    if negb (String.prefix "<poml>" (Str.strip poml_text))
    then "<poml>" +:+ poml_text +:+ "</poml>"
    else poml_text in
  Re.sub self_closing_pattern expand_self_closing poml_text.

(** ** The Element Processor *)

Definition _process_example (vars : gmap string pyval) (element : Element)
    : option example :=
  let each (ex : example) (child : Element) : example :=
    let child_tag := Str.lower (el_tag child) in
    let child_text := Str.strip (text_or_empty (el_text child)) in
    let child_text := _substitute_variables vars child_text in
    if bool_decide (child_tag = "input")
    then Example_ child_text (ex_output ex)
    else if bool_decide (child_tag ∈ ["output"; "o"])
    then Example_ (ex_input ex) child_text
    else ex in
  let ex := foldl each (Example_ "" "") (el_children element) in
  let element_text := text_or_empty (el_text element) in
  let ex :=
    if Str.is_empty (ex_input ex) && Str.is_empty (ex_output ex)
       && negb (Str.is_empty element_text)
    then Example_ (_substitute_variables vars (Str.strip element_text))
                  (ex_output ex)
    else ex in
  if negb (Str.is_empty (ex_input ex)) || negb (Str.is_empty (ex_output ex))
  then Some ex else None.

Definition cell_text (cell : Element) : string := text_or_empty (el_text cell).

Definition _process_table (w : World) (element : Element) : table :=
  let title := el_get element "title" "Table" in
  let src := el_get element "src" "" in
  if negb (Str.is_empty src) && path_exists w src then
    match _load_table_from_file w src with
    | Returns content => Table title src [] [] content
    | Raises e =>
        Table title src [] []
          ("Error loading table from " +:+ src +:+ ": " +:+ exn_msg e)
    end
  else
    let thead := el_find element "thead" in
    let tbody := el_find element "tbody" in
    let headers :=
      match thead ≫= λ thead, el_find thead "tr" with
      | Some header_row => cell_text <$> el_findall header_row "th"
      | None => []
      end in
    let rows :=
      match tbody with
      | Some tbody =>
          (λ row, cell_text <$> el_findall row "td") <$> el_findall tbody "tr"
      | None => []
      end in
    let content :=
      if nonempty headers || nonempty rows then
        let lines :=
          if nonempty headers then
            let line0 := Str.join " | " headers in [line0; dashes line0]
          else [] in
        Str.join nl (lines ++ (Str.join " | " <$> rows))
      else "" in
    Table title src headers rows content.

Definition _process_document (w : World) (element : Element) : document :=
  let src := el_get element "src" "" in
  let title := el_get element "title" "Document" in
  let content := text_or_empty (el_text element) in
  if negb (Str.is_empty src) && path_exists w src then
    match _load_document_from_file w src with
    | Returns loaded => Document src title loaded
    | Raises e => Document src title ("Error loading document: " +:+ exn_msg e)
    end
  else Document src title content.

Definition _process_element (w : World) (pd : parsed_data) (element : Element)
    : parsed_data :=
  let tag := Str.lower (el_tag element) in
  let text := text_or_empty (el_text element) in
  let text := _substitute_variables (variables pd) text in
  let pd :=
    if bool_decide (tag = "role") then with_role (Str.strip text) pd
    else if bool_decide (tag = "task") then with_task (Str.strip text) pd
    else if bool_decide (tag = "output-format" ∨ tag = "output_format")
    then with_output_format (Str.strip text) pd
    else if bool_decide (tag = "example") then
      match _process_example (variables pd) element with
      | Some example => with_examples (examples pd ++ [example]) pd
      | None => pd
      end
    else if bool_decide (tag = "document") then
      with_documents (documents pd ++ [_process_document w element]) pd
    else if bool_decide (tag = "table") then
      with_tables (tables pd ++ [_process_table w element]) pd
    else if bool_decide (tag = "img" ∨ tag = "image") then
      let img_info :=
        Image (el_get element "src" "") (el_get element "alt" "")
              (el_get element "title" "Image") in
      with_images (images pd ++ [img_info]) pd
    else if bool_decide (tag = "let") then
      let var_name := el_attrib element !! "name" in
      let var_value := el_get element "value" (Str.strip text) in
      match var_name with
      | Some var_name =>
          if negb (Str.is_empty var_name) then
            with_variables
              (<[var_name :=
                   PStr (_substitute_variables (variables pd) var_value)]>
                 (variables pd)) pd
          else pd
      | None => pd
      end
    else pd in
  with_raw_elements
    (raw_elements pd
     ++ [Raw tag text (el_attrib element) (el_tag <$> el_children element)])
    pd.

(** [for element in root: self._process_element(element, parsed_data)] *)
Definition process_children (w : World) (pd : parsed_data)
    (elements : list Element) : parsed_data :=
  foldl (_process_element w) pd elements.

(** ** The parser *)

Definition _parse_with_fallback (w : World) (self_variables : gmap string pyval)
    (poml_text : string) : outcome parsed_data :=
  let cleaned_poml := _preprocess_poml poml_text in
  match ET_fromstring w cleaned_poml with
  | Returns root =>
      let parsed_data :=
        ParsedData None "" "" [] "" [] [] [] self_variables "fallback" [] in
      Returns (process_children w parsed_data (el_children root))
  | Raises e =>
      if is_class ParseError e then
        Returns (ParsedData (Some ("POML parsing error: " +:+ exn_msg e))
                   "Assistant" "Help the user" [] "" [] [] [] ∅ "error" [])
      else Raises e
  end.

(** the loop of [_parse_with_official_sdk] over the messages *)
Definition sdk_roles (messages : list sdk_message) : string * string :=
  foldl (λ '(role, task) message,
           let content := content message in
           if bool_decide (speaker message = "system") then
             if Str.is_empty role && Str.contains "role" (Str.lower content)
             then (content, task)
             else if Str.is_empty task then (role, content) else (role, task)
           else if bool_decide (speaker message = "human") && Str.is_empty task
           then (role, content)
           else (role, task))
        ("", "") messages.

Definition _parse_with_official_sdk (w : World)
    (self_variables : gmap string pyval) (poml_text : string)
    (context : decoded) : outcome parsed_data :=
  match poml_poml w poml_text context with
  | Returns messages =>
      let '(role, task) := sdk_roles messages in
      let role := if Str.is_empty role then "AI Assistant" else role in
      let task :=
        if Str.is_empty task then "Help the user with their request"
        else task in
      Returns (ParsedData None role task [] "" [] [] [] self_variables
                 "official" [])
  | Raises e =>
      Raises (Exn OtherException
                ("Official POML SDK parsing error: " +:+ exn_msg e))
  end.

(** [self.variables.update(context)] *)
Definition update_variables (self_variables : gmap string pyval)
    (context : decoded) : outcome (gmap string pyval) :=
  match context with
  | DDict d => Returns (d ∪ self_variables)
  | DNone => Returns self_variables
  | DOther (Returns pairs) =>
      Returns (foldl (λ m kv, <[kv.1 := kv.2]> m) self_variables pairs)
  | DOther (Raises e) => Raises e
  end.

(** [POMLParser.parse], for a parser whose [self.variables] is
    [self_variables] *)
Definition parse (w : World) (self_variables : gmap string pyval)
    (poml_text : string) (context : decoded) : outcome parsed_data :=
  let context := match context with DNone => DDict ∅ | c => c end in
  match update_variables self_variables context with
  | Raises e => Raises e
  | Returns self_variables =>
      let official :=
        if available w "poml"
        then Some (_parse_with_official_sdk w self_variables poml_text context)
        else None in
      match official with
      | Some (Returns parsed) => Returns parsed
      | _ => _parse_with_fallback w self_variables poml_text
      end
  end.

Definition _validate_json_context (w : World) (json_str : string)
    : outcome (bool * decoded * string) :=
  let loaded :=
    if negb (Str.is_empty (Str.strip json_str)) then json_loads w json_str
    else Returns (DDict ∅) in
  match loaded with
  | Returns data =>
      let invalid :=
        if available w "jsonschema" then
          match data with
          | DDict _ => None
          | _ => Some (validation_error w data)
          end
        else None in
      match invalid with
      | Some validation_error =>
          Returns (false, DDict ∅,
                   "JSON schema validation failed: " +:+ validation_error)
      | None => Returns (true, data, "Valid JSON")
      end
  | Raises e =>
      if is_class JSONDecodeError e
      then Returns (false, DDict ∅, "Invalid JSON: " +:+ exn_msg e)
      else Raises e
  end.

(** ** The Renderer *)

Definition labelled (optimized : bool) (label field : string) : list string :=
  if Str.is_empty field then []
  else [if optimized then label +:+ field else field].

Definition example_parts (i : nat) (example : example) : list string :=
  if negb (Str.is_empty (ex_input example))
     && negb (Str.is_empty (ex_output example))
  then ["Example " +:+ str_of_nat i +:+ ":";
        "Input: " +:+ ex_input example;
        "Output: " +:+ ex_output example]
  else if negb (Str.is_empty (ex_input example))
  then ["Example " +:+ str_of_nat i +:+ ": " +:+ ex_input example]
  else [].

Definition examples_section (optimized : bool) (examples : list example)
    : list string :=
  if nonempty examples then
    (if optimized then ["Examples:"] else [])
    ++ mjoin (imap (λ i example, example_parts (S i) example) examples)
  else [].

Definition document_parts (doc : document) : list string :=
  if Str.is_empty (doc_content doc) then []
  else ["Document - " +:+ doc_title doc +:+ ":"; doc_content doc].

Definition table_parts (table : table) : list string :=
  if Str.is_empty (tbl_content table) then []
  else ["Table - " +:+ tbl_title table +:+ ":"; tbl_content table].

Definition image_parts (img : image) : list string :=
  if Str.is_empty (img_alt img) then []
  else ["Image - " +:+ img_title img +:+ ": " +:+ img_alt img].

(** the list [parts] that [render] builds *)
Definition render_parts (parsed_data : parsed_data) (style : string)
    : list string :=
  let optimized := bool_decide (style = "optimized") in
  labelled optimized "Role: " (role parsed_data)
  ++ labelled optimized "Task: " (task parsed_data)
  ++ examples_section optimized (examples parsed_data)
  ++ mjoin (document_parts <$> documents parsed_data)
  ++ mjoin (table_parts <$> tables parsed_data)
  ++ mjoin (image_parts <$> images parsed_data)
  ++ labelled optimized "Output Format: " (output_format parsed_data).

Definition render (parsed_data : parsed_data) (style : string) : string :=
  let parts := render_parts parsed_data style in
  if bool_decide (style = "debug") then
    nl +:+ nl +:+ "=== DEBUG MODE ===" +:+ nl +:+
    Str.join (nl +:+ nl)
      (imap (λ i part, "[" +:+ str_of_nat (S i) +:+ "] " +:+ part) parts)
  else Str.join (nl +:+ nl) parts.

(** ** The pipeline entry point *)

Definition json_flags (flags : list (string * bool)) : json :=
  JObject ((λ kb, (kb.1, JBool kb.2)) <$> flags).

(** [ZenkaiPOMLProcessor.process_poml]; the second component is the text
    [json.dumps] makes of the metadata.  The names under ["variables_used"]
    come in the order of the model's map. *)
Definition process_poml (w : World) (poml_template render_mode : string)
    (variables_json : string) (max_length : Z) : outcome (string * string) :=
  match _validate_json_context w variables_json with
  | Raises e => Raises e
  | Returns (false, _, json_error) =>
      let error_prompt :=
        "JSON Variables Error: " +:+ json_error +:+ nl +:+ nl +:+
        "Fallback prompt active." in
      let metadata :=
        JObject [("error", JString json_error); ("mode", JString render_mode)] in
      Returns (error_prompt, json_dumps w None metadata)
  | Returns (true, context, _) =>
      match parse w ∅ poml_template context with
      | Raises e => Raises e
      | Returns parsed_data =>
          match error parsed_data with
          | Some err =>
              let error_prompt :=
                "POML Error: " +:+ err +:+ nl +:+ nl +:+ "Fallback: " +:+
                role parsed_data +:+ " - " +:+ task parsed_data in
              let metadata :=
                JObject [("error", JString err); ("mode", JString render_mode);
                         ("dependencies", json_flags (dependency_flags w))] in
              Returns (error_prompt, json_dumps w None metadata)
          | None =>
              let rendered_prompt := render parsed_data render_mode in
              let rendered_prompt :=
                if bool_decide (0 < max_length)%Z
                   && bool_decide
                        (max_length < Z.of_nat (String.length rendered_prompt))%Z
                then String.substring 0 (Z.to_nat max_length) rendered_prompt
                     +:+ "..."
                else rendered_prompt in
              let metadata :=
                JObject
                  [("mode", JString render_mode);
                   ("sdk_used", JString (sdk_used parsed_data));
                   ("components_found",
                    JObject
                      [("role", JBool (negb (Str.is_empty (role parsed_data))));
                       ("task", JBool (negb (Str.is_empty (task parsed_data))));
                       ("examples", JNum (Z.of_nat (length (examples parsed_data))));
                       ("documents", JNum (Z.of_nat (length (documents parsed_data))));
                       ("tables", JNum (Z.of_nat (length (tables parsed_data))));
                       ("images", JNum (Z.of_nat (length (images parsed_data))));
                       ("output_format",
                        JBool (negb (Str.is_empty (output_format parsed_data))))]);
                   ("variables_used",
                    JArray (JString <$> elements (dom (variables parsed_data))));
                   ("prompt_length", JNum (Z.of_nat (String.length rendered_prompt)));
                   ("dependencies_status", json_flags (dependency_flags w));
                   ("features_available",
                    json_flags
                      [("official_poml_sdk", available w "poml");
                       ("advanced_tables", available w "pandas");
                       ("pdf_processing", available w "pypdf2");
                       ("image_processing", available w "pillow");
                       ("external_data", available w "requests");
                       ("json_validation", available w "jsonschema")])] in
              Returns (rendered_prompt, json_dumps w (Some 2) metadata)
          end
      end
  end.

(** ** A small world for examples

    No optional package, no file; the XML parser knows one document and
    [json.loads] one object. *)

Module Sample.

Definition hi_markup : string := "<poml><role>Hi</role></poml>".

Definition hi_tree : Element :=
  Elem "poml" ∅ None [Elem "role" ∅ (Some "Hi") []].

Definition world : World := {|
  importable := λ _, false;
  ET_fromstring := λ s,
    if bool_decide (s = hi_markup) then Returns hi_tree
    else Raises (Exn ParseError "syntax error: line 1, column 0");
  json_loads := λ s,
    if bool_decide (s = "{}") then Returns (DDict ∅)
    else Raises (Exn JSONDecodeError "Expecting value: line 1 column 1 (char 0)");
  json_dumps := λ _ _, "";
  validation_error := λ _, "";
  poml_poml := λ _ _, Raises (Exn OtherException "no SDK");
  path_exists := λ _, false;
  path_ext := λ _, "";
  read_text := λ _ _, Raises (Exn OtherException "No such file or directory");
  pd_read_csv := λ _, Raises (Exn OtherException "no pandas");
  pd_read_excel := λ _, Raises (Exn OtherException "no pandas");
  csv_rows := λ _, Raises (Exn OtherException "No such file or directory");
  openpyxl_rows := λ _, Raises (Exn OtherException "No module named openpyxl");
  pdf_pages := λ _, Raises (Exn OtherException "No such file or directory")
|}.

(** the accumulator [_parse_with_fallback] starts from *)
Definition start (vars : gmap string pyval) : parsed_data :=
  ParsedData None "" "" [] "" [] [] [] vars "fallback" [].

End Sample.

(** * Descriptions used in the proofs *)

(** ** What the placeholder pattern matches

    [placeholder_at] describes a match of [var_pattern] without the
    matcher: two opening braces, a non-empty body free of closing braces,
    two closing braces.  Group 1 is the body without its leading
    whitespace, or the last character of a body that is all whitespace. *)

Module Var.
Import Re.

Definition rbrace : ascii := "}"%char.
Definition lbrace : ascii := "{"%char.

(** the text before the first closing brace, and the text from it on *)
Fixpoint body_of (t : string) : string * string :=
  match t with
  | "" => ("", "")
  | String c t' =>
      if Ascii.eqb rbrace c then ("", t)
      else let '(b, a) := body_of t' in (String c b, a)
  end.

Definition closes (a : string) : option string :=
  match a with
  | String c1 (String c2 rest) =>
      if Ascii.eqb rbrace c1 && Ascii.eqb rbrace c2 then Some rest else None
  | _ => None
  end.

Fixpoint var_group (b : string) : string :=
  match b with
  | "" => ""
  | String c b' =>
      if Str.isspace c && negb (Str.is_empty b') then var_group b' else b
  end.

Definition placeholder_tail (t : string) : option found :=
  let '(b, a) := body_of t in
  match closes a with
  | Some rest =>
      if Str.is_empty b then None
      else Some (Found (b +:+ "}}") (var_group b) rest)
  | None => None
  end.

Definition placeholder_at (s : string) : option found :=
  match s with
  | String c1 (String c2 t) =>
      if Ascii.eqb lbrace c1 && Ascii.eqb lbrace c2
      then take c1 false <$> (take c2 false <$> placeholder_tail t)
      else None
  | _ => None
  end.

(** the continuations of the matcher inside [var_pattern] *)
Definition close2 : string → option found :=
  re_match [lit rbrace; lit rbrace] false.
Definition K3 : string → option found := star_loop Str.isspace close2 false.
Definition K2 : string → option found := star_loop (non rbrace) K3 true.
Definition K1 (s : string) : option found :=
  match s with
  | String c s' => if non rbrace c then take c true <$> K2 s' else None
  | "" => None
  end.
Definition K0 : string → option found := star_loop Str.isspace K1 false.

End Var.

(** [e] is a [let] element that names [name] *)
Definition binds (name : string) (e : Element) : Prop :=
  Str.lower (el_tag e) = "let" ∧ el_attrib e !! "name" = Some name.

(** * Facts *)

(** ** Strings *)

Module StrFacts.
Import Str.

Lemma app_cons c s t : String c s +:+ t = String c (s +:+ t).
Proof. reflexivity. Qed.

Lemma app_nil_l s : "" +:+ s = s.
Proof. reflexivity. Qed.

Lemma app_nil_r s : s +:+ "" = s.
Proof. induction s as [|c s IH]; [done|]. by rewrite app_cons, IH. Qed.

Lemma app_assoc s t u : (s +:+ t) +:+ u = s +:+ t +:+ u.
Proof. induction s as [|c s IH]; [done|]. by rewrite !app_cons, IH. Qed.

Lemma app_length s t :
  String.length (s +:+ t) = String.length s + String.length t.
Proof. induction s as [|c s IH]; [done|]. rewrite app_cons. simpl. lia. Qed.

Lemma lstrip_length s : String.length (lstrip s) ≤ String.length s.
Proof.
  induction s as [|c s IH]; cbn; [done|]. destruct (isspace c); cbn; lia.
Qed.

Lemma lstrip_head c s : lstrip (String c s) = String c s → isspace c = false.
Proof.
  cbn. destruct (isspace c); [|done]. intros H.
  pose proof (lstrip_length s) as Hl. rewrite H in Hl. cbn in Hl. lia.
Qed.

Lemma lstrip_idem s : lstrip (lstrip s) = lstrip s.
Proof.
  induction s as [|c s IH]; cbn; [done|].
  destruct (isspace c) eqn:E; [done|]. cbn. by rewrite E.
Qed.

Lemma lstrip_all_space l s : all isspace l = true → lstrip (l +:+ s) = lstrip s.
Proof.
  induction l as [|c l IH]; [done|]. rewrite app_cons. cbn.
  intros [-> Hl]%andb_true_iff. by apply IH.
Qed.

Lemma rstrip_idem s : rstrip (rstrip s) = rstrip s.
Proof.
  induction s as [|c s IH]; cbn; [done|].
  destruct (isspace c && is_empty (rstrip s)) eqn:E; [done|].
  cbn. by rewrite IH, E.
Qed.

Lemma rstrip_all_space r : all isspace r = true → rstrip r = "".
Proof.
  induction r as [|c r IH]; [done|]. cbn. intros [-> Hr]%andb_true_iff.
  by rewrite IH.
Qed.

Lemma rstrip_app_space s r : all isspace r = true → rstrip (s +:+ r) = rstrip s.
Proof.
  intros Hr. induction s as [|c s IH].
  - rewrite app_nil_l. by apply rstrip_all_space.
  - rewrite app_cons. cbn. by rewrite IH.
Qed.

Lemma rstrip_app_keep s t : rstrip t ≠ "" → rstrip (s +:+ t) = s +:+ rstrip t.
Proof.
  intros Ht. induction s as [|c s IH]; [done|]. rewrite !app_cons. cbn.
  rewrite IH. destruct (s +:+ rstrip t) eqn:E; [|by rewrite andb_false_r].
  destruct s; [|done]. by rewrite app_nil_l in E.
Qed.

Lemma rstrip_cons c s : isspace c = false → rstrip (String c s) = String c (rstrip s).
Proof. intros E. cbn. by rewrite E. Qed.

Lemma strip_idem s : strip (strip s) = strip s.
Proof.
  unfold strip. destruct (lstrip s) as [|c u] eqn:E; [done|].
  assert (isspace c = false) as Hc.
  { apply (lstrip_head c u). by rewrite <-E, lstrip_idem. }
  rewrite rstrip_cons by done. cbn [lstrip]. rewrite Hc.
  rewrite <-(rstrip_cons c u) by done. apply rstrip_idem.
Qed.

(** a stripped text that is not empty starts outside whitespace *)
Lemma strip_head c s u : strip s = String c u → isspace c = false.
Proof.
  unfold strip. destruct (lstrip s) as [|d v] eqn:E; [done|].
  assert (isspace d = false) as Hd.
  { apply (lstrip_head d v). by rewrite <-E, lstrip_idem. }
  rewrite rstrip_cons by done. by intros [= <- _].
Qed.

Lemma all_lstrip cls s : all cls s = true → all cls (lstrip s) = true.
Proof.
  induction s as [|c s IH]; [done|]. cbn. intros [Hc Hs]%andb_true_iff.
  destruct (isspace c); [by apply IH|]. cbn. by rewrite Hc, Hs.
Qed.

Lemma all_rstrip cls s : all cls s = true → all cls (rstrip s) = true.
Proof.
  induction s as [|c s IH]; [done|]. cbn. intros [Hc Hs]%andb_true_iff.
  destruct (isspace c && is_empty (rstrip s)); [done|]. cbn.
  by rewrite Hc, IH.
Qed.

Lemma all_strip cls s : all cls s = true → all cls (strip s) = true.
Proof. intros H. by apply all_rstrip, all_lstrip. Qed.

Lemma replicate_length n c : String.length (replicate n c) = n.
Proof. induction n as [|n IH]; [done|]. cbn. by rewrite IH. Qed.

Lemma all_app cls s t : all cls (s +:+ t) = all cls s && all cls t.
Proof.
  induction s as [|c s IH]; [done|]. rewrite app_cons. cbn.
  by rewrite IH, andb_assoc.
Qed.

End StrFacts.

(** ** The matcher *)

Module ReFacts.
Import Re.

Abbreviation all := Str.all.
Abbreviation stops := Str.stops.

Lemma takes_found p g w g1 r :
  takes p g (Found w g1 r)
  = Found (p +:+ w) (if g then p +:+ g1 else g1) r.
Proof.
  induction p as [|c p IH]; simpl.
  - by destruct g.
  - rewrite IH. unfold take; simpl. by destruct g.
Qed.

(** a repetition that can take a whole prefix and go on takes it *)
Lemma star_loop_greedy cls k g p s f :
  all cls p = true → stops cls s = true → k s = Some f →
  star_loop cls k g (p +:+ s) = Some (takes p g f).
Proof.
  intros Hp Hs Hk. induction p as [|c p IH]; simpl in *.
  - destruct s as [|c s]; simpl in *; [done|].
    by apply negb_true_iff in Hs as ->.
  - apply andb_true_iff in Hp as [-> Hp]. by rewrite (IH Hp).
Qed.

(** the text matched and the text left make up the input *)
Lemma star_loop_splits cls k g :
  (∀ s f, k s = Some f → s = whole f +:+ rest f) →
  ∀ s f, star_loop cls k g s = Some f → s = whole f +:+ rest f.
Proof.
  intros Hk s. induction s as [|c s IH]; intros f; simpl; [by apply Hk|].
  destruct (cls c); [|by apply Hk].
  destruct (star_loop cls k g s) as [f'|] eqn:E; [|by apply Hk].
  intros [= <-]. simpl. rewrite StrFacts.app_cons. f_equal. by apply IH.
Qed.

Lemma re_match_splits r g s f :
  re_match r g s = Some f → s = whole f +:+ rest f.
Proof.
  revert g s f. induction r as [|a r IH]; intros g s f; simpl.
  - by intros [= <-].
  - destruct a as [cls|cls| |].
    + destruct s as [|c s]; [done|]. destruct (cls c); [|done].
      destruct (re_match r g s) as [f'|] eqn:E; [|done].
      intros [= <-]. simpl. rewrite StrFacts.app_cons. f_equal. by eapply IH.
    + apply star_loop_splits. intros s' f'. apply IH.
    + apply IH.
    + apply IH.
Qed.

Lemma sub_from_skip r repl w s :
  sub_from r repl (String.length w) (w +:+ s) = sub_from r repl 0 s.
Proof. induction w as [|c w IH]; [done|]. apply IH. Qed.

(** the two equations of the scan *)
Lemma sub_match r repl s f :
  re_match r false s = Some f → whole f ≠ "" →
  sub r repl s = repl (group1 f) +:+ sub r repl (rest f).
Proof.
  intros Hm Hw. unfold sub.
  pose proof (re_match_splits _ _ _ _ Hm) as Hs.
  destruct (whole f) as [|c w] eqn:Ew; [done|].
  rewrite StrFacts.app_cons in Hs. subst s.
  simpl. rewrite Hm, Ew. simpl. by rewrite sub_from_skip.
Qed.

Lemma sub_copy r repl c s :
  re_match r false (String c s) = None →
  sub r repl (String c s) = String c (sub r repl s).
Proof. intros Hm. unfold sub. simpl. by rewrite Hm. Qed.

Lemma findall_from_skip r w s :
  findall_from r (String.length w) (w +:+ s) = findall_from r 0 s.
Proof. induction w as [|c w IH]; [done|]. apply IH. Qed.

Lemma findall_match r s f :
  re_match r false s = Some f → whole f ≠ "" →
  findall r s = group1 f :: findall r (rest f).
Proof.
  intros Hm Hw. unfold findall.
  pose proof (re_match_splits _ _ _ _ Hm) as Hs.
  destruct (whole f) as [|c w] eqn:Ew; [done|].
  rewrite StrFacts.app_cons in Hs. subst s.
  simpl. rewrite Hm, Ew. simpl. by rewrite findall_from_skip.
Qed.

Lemma findall_copy r c s :
  re_match r false (String c s) = None →
  findall r (String c s) = findall r s.
Proof. intros Hm. unfold findall. simpl. by rewrite Hm. Qed.

End ReFacts.

(** ** Substitution on examples *)

Example substitute_present :
  _substitute_variables {["x" := PStr "5"]} "a {{x}} b" = "a 5 b".
Proof. vm_compute. reflexivity. Qed.

Example substitute_absent_spaced :
  _substitute_variables ∅ "a {{ y }} b" = "a {{y}} b".
Proof. vm_compute. reflexivity. Qed.

Example substitute_int :
  _substitute_variables {["n" := PInt 42]} "{{  n}}{{ }}{{a}b}}"
  = "42{{}}{{a}b}}".
Proof. vm_compute. reflexivity. Qed.

(** ** The placeholder pattern *)

Module VarFacts.
Import Re ReFacts Var.
#[local] Arguments Ascii.eqb : simpl never.

Lemma var_match_unfold c1 c2 t :
  re_match var_pattern false (String c1 (String c2 t))
  = if Ascii.eqb lbrace c1
    then take c1 false <$>
         (if Ascii.eqb lbrace c2 then take c2 false <$> K0 t else None)
    else None.
Proof. reflexivity. Qed.

Lemma space_not_rbrace c : Str.isspace c = true → non rbrace c = true.
Proof.
  intros H. unfold non. destruct (Ascii.eqb_spec rbrace c) as [<-|]; [|done].
  by vm_compute in H.
Qed.

Lemma close2_spec a :
  close2 a = (λ rest, Found "}}" "" rest) <$> closes a.
Proof.
  destruct a as [|c1 [|c2 rest]]; simpl; unfold close2; simpl.
  - done.
  - by destruct (Ascii.eqb rbrace c1).
  - destruct (Ascii.eqb_spec rbrace c1) as [<-|]; [|done].
    destruct (Ascii.eqb_spec rbrace c2) as [<-|]; done.
Qed.

Lemma closes_inv a rest : closes a = Some rest → a = "}}" +:+ rest.
Proof.
  destruct a as [|c1 [|c2 r]]; simpl; try done.
  destruct (Ascii.eqb_spec rbrace c1) as [<-|]; [|done].
  destruct (Ascii.eqb_spec rbrace c2) as [<-|]; [|done].
  by intros [= ->].
Qed.

Lemma body_of_spec t :
  t = (body_of t).1 +:+ (body_of t).2
  ∧ all (non rbrace) (body_of t).1 = true
  ∧ stops (non rbrace) (body_of t).2 = true.
Proof.
  induction t as [|c t (IH1 & IH2 & IH3)]; [done|].
  cbn [body_of]. destruct (Ascii.eqb rbrace c) eqn:E.
  - cbn. unfold non. by rewrite E.
  - destruct (body_of t) as [b a]. cbn in *. unfold non at 1. rewrite E.
    by rewrite StrFacts.app_cons, <-IH1.
Qed.

Lemma stops_cons_rbrace c a :
  stops (non rbrace) (String c a) = true → c = rbrace.
Proof.
  simpl. unfold non. destruct (Ascii.eqb_spec rbrace c) as [<-|]; done.
Qed.

Lemma K3_closes a rest : closes a = Some rest → K3 a = Some (Found "}}" "" rest).
Proof.
  intros H. pose proof (close2_spec a) as Hc. rewrite H in Hc.
  apply closes_inv in H as ->. exact Hc.
Qed.

Lemma K2_body b rest :
  all (non rbrace) b = true →
  K2 (b +:+ "}}" +:+ rest) = Some (Found (b +:+ "}}") b rest).
Proof.
  intros Hb. unfold K2.
  rewrite (star_loop_greedy _ _ _ _ _ (Found "}}" "" rest)); [|done|done|].
  - by rewrite takes_found, StrFacts.app_nil_r.
  - by apply K3_closes.
Qed.

Lemma K0_body b rest :
  b ≠ "" → all (non rbrace) b = true →
  K0 (b +:+ "}}" +:+ rest) = Some (Found (b +:+ "}}") (var_group b) rest).
Proof.
  induction b as [|c b IH]; [done|]. intros _ Hb.
  cbn [all] in Hb. apply andb_true_iff in Hb as [Hc Hb].
  unfold K0. rewrite StrFacts.app_cons. cbn [star_loop var_group].
  destruct (Str.isspace c) eqn:Ec; cbn [andb].
  - destruct b as [|d b]; cbn [Str.is_empty negb].
    + cbn. rewrite Hc. by cbn.
    + fold K0. rewrite IH by done. by cbn.
  - cbn [K1]. rewrite Hc, K2_body by done. by cbn.
Qed.

Lemma K0_no_body a : stops (non rbrace) a = true → K0 a = None.
Proof.
  destruct a as [|c a']; [done|]. intros ->%stops_cons_rbrace. reflexivity.
Qed.

(** a body that is not closed by two braces: every continuation fails *)
Lemma close2_open a b :
  closes a = None → all (non rbrace) b = true → close2 (b +:+ a) = None.
Proof.
  intros Hopen Hb. rewrite close2_spec. destruct b as [|c b].
  - by rewrite StrFacts.app_nil_l, Hopen.
  - cbn in Hb. apply andb_true_iff in Hb as [Hc _]. unfold non in Hc.
    apply negb_true_iff in Hc. rewrite StrFacts.app_cons.
    destruct (b +:+ a); cbn [closes]; by rewrite ?Hc.
Qed.

Lemma K3_open a b :
  stops (non rbrace) a = true → closes a = None →
  all (non rbrace) b = true → K3 (b +:+ a) = None.
Proof.
  intros Hstop Hopen. induction b as [|c b IH]; intros Hb.
  - rewrite StrFacts.app_nil_l. destruct a as [|c a']; [done|].
    apply stops_cons_rbrace in Hstop as ->. unfold K3. cbn [star_loop].
    replace (Str.isspace rbrace) with false by done.
    by apply (close2_open _ "").
  - pose proof (close2_open _ _ Hopen Hb) as Hc.
    cbn in Hb. apply andb_true_iff in Hb as [_ Hb].
    unfold K3. rewrite StrFacts.app_cons in *. cbn [star_loop]. fold K3.
    rewrite (IH Hb). by destruct (Str.isspace c).
Qed.

Lemma K2_open a b :
  stops (non rbrace) a = true → closes a = None →
  all (non rbrace) b = true → K2 (b +:+ a) = None.
Proof.
  intros Hstop Hopen. induction b as [|c b IH]; intros Hb.
  - rewrite StrFacts.app_nil_l. destruct a as [|c a']; [done|].
    pose proof Hstop as ->%stops_cons_rbrace. unfold K2. cbn [star_loop].
    replace (non rbrace rbrace) with false by done.
    by apply (K3_open _ "").
  - pose proof (K3_open _ _ Hstop Hopen Hb) as Hc.
    cbn in Hb. apply andb_true_iff in Hb as [_ Hb].
    unfold K2. rewrite StrFacts.app_cons in *. cbn [star_loop]. fold K2.
    rewrite (IH Hb). by destruct (non rbrace c).
Qed.

Lemma K1_open a b :
  stops (non rbrace) a = true → closes a = None →
  all (non rbrace) b = true → K1 (b +:+ a) = None.
Proof.
  intros Hstop Hopen Hb. destruct b as [|c b].
  - rewrite StrFacts.app_nil_l. destruct a as [|c a']; [done|].
    by apply stops_cons_rbrace in Hstop as ->.
  - cbn in Hb. apply andb_true_iff in Hb as [Hc Hb].
    rewrite StrFacts.app_cons. cbn [K1]. by rewrite Hc, K2_open.
Qed.

Lemma K0_open a b :
  stops (non rbrace) a = true → closes a = None →
  all (non rbrace) b = true → K0 (b +:+ a) = None.
Proof.
  intros Hstop Hopen. induction b as [|c b IH]; intros Hb.
  - by apply K0_no_body.
  - pose proof (K1_open _ _ Hstop Hopen Hb) as Hc.
    cbn in Hb. apply andb_true_iff in Hb as [_ Hb].
    unfold K0. rewrite StrFacts.app_cons in *. cbn [star_loop]. fold K0.
    rewrite (IH Hb). by destruct (Str.isspace c).
Qed.

Lemma var_tail t : K0 t = placeholder_tail t.
Proof.
  unfold placeholder_tail.
  destruct (body_of_spec t) as (Ht & Hb & Ha).
  destruct (body_of t) as [b a]. cbn in *. subst t.
  destruct (closes a) as [rest|] eqn:Ec.
  - destruct b as [|c b]; cbn [Str.is_empty].
    + by apply K0_no_body.
    + apply closes_inv in Ec as ->. by apply K0_body.
  - by apply K0_open.
Qed.

(** the matcher on [var_pattern] finds exactly the placeholders *)
Lemma var_match s : re_match var_pattern false s = placeholder_at s.
Proof.
  destruct s as [|c1 [|c2 t]]; cbn [placeholder_at].
  - done.
  - cbn. by destruct (Ascii.eqb _ c1).
  - rewrite var_match_unfold, var_tail.
    by destruct (Ascii.eqb lbrace c1), (Ascii.eqb lbrace c2).
Qed.

Lemma body_of_app b a :
  all (non rbrace) b = true → stops (non rbrace) a = true →
  body_of (b +:+ a) = (b, a).
Proof.
  intros Hb Ha. induction b as [|c b IH].
  - rewrite StrFacts.app_nil_l. destruct a as [|c a]; [done|].
    apply stops_cons_rbrace in Ha as ->. reflexivity.
  - cbn in Hb. apply andb_true_iff in Hb as [Hc Hb].
    rewrite StrFacts.app_cons. cbn [body_of]. unfold non in Hc.
    apply negb_true_iff in Hc. by rewrite Hc, (IH Hb).
Qed.

Lemma placeholder_at_intro b x :
  b ≠ "" → all (non rbrace) b = true →
  placeholder_at ("{{" +:+ b +:+ "}}" +:+ x)
  = Some (Found ("{{" +:+ b +:+ "}}") (var_group b) x).
Proof.
  intros Hne Hb. cbn [placeholder_at String.append]. rewrite !StrFacts.app_cons.
  cbn [placeholder_at]. replace (Ascii.eqb lbrace "{") with true by done.
  cbn [andb]. unfold placeholder_tail. rewrite StrFacts.app_nil_l.
  rewrite body_of_app by done. cbn [closes].
  replace (Ascii.eqb rbrace "}") with true by done. cbn [andb].
  destruct b; [done|]. reflexivity.
Qed.

Lemma placeholder_at_inv s f :
  placeholder_at s = Some f →
  ∃ b, s = "{{" +:+ b +:+ "}}" +:+ rest f ∧ b ≠ "" ∧
       all (non rbrace) b = true ∧ group1 f = var_group b.
Proof.
  destruct s as [|c1 [|c2 t]]; cbn [placeholder_at]; try done.
  destruct (Ascii.eqb_spec lbrace c1) as [<-|]; [|done].
  destruct (Ascii.eqb_spec lbrace c2) as [<-|]; [|done]. cbn [andb].
  unfold placeholder_tail.
  destruct (body_of_spec t) as (Ht & Hb & _).
  destruct (body_of t) as [b a]. cbn in Ht, Hb.
  destruct (closes a) as [r|] eqn:Ec; [|done].
  destruct b as [|c b]; [done|]. cbn. intros [= <-]. cbn.
  exists (String c b). apply closes_inv in Ec as ->. by rewrite Ht.
Qed.

Lemma placeholder_at_shorter s f :
  placeholder_at s = Some f → String.length (rest f) < String.length s.
Proof.
  intros (b & -> & _)%placeholder_at_inv.
  rewrite !StrFacts.app_length. cbn. lia.
Qed.

Lemma placeholder_at_whole s f : placeholder_at s = Some f → whole f ≠ "".
Proof.
  destruct s as [|c1 [|c2 t]]; cbn [placeholder_at]; try done.
  destruct (_ && _); [|done].
  destruct (placeholder_tail t); [|done]. by intros [= <-].
Qed.

(** induction along the scan of [re.sub] *)
Lemma scan_ind (P : string → Prop) :
  P "" →
  (∀ s f, placeholder_at s = Some f → P (rest f) → P s) →
  (∀ c s, placeholder_at (String c s) = None → P s → P (String c s)) →
  ∀ s, P s.
Proof.
  intros Hnil Hmatch Hcopy s.
  remember (String.length s) as n eqn:En. revert s En.
  induction n as [n IH] using lt_wf_ind. intros s ->.
  destruct (placeholder_at s) as [f|] eqn:E.
  - apply (Hmatch s f E). eapply IH; [|done]. by apply placeholder_at_shorter.
  - destruct s as [|c s]; [done|]. apply Hcopy; [done|].
    eapply IH; [|done]. cbn. lia.
Qed.

End VarFacts.

(** ** Substitution along the scan *)

Module Subst.
Import Re ReFacts Var VarFacts.
#[local] Arguments Ascii.eqb : simpl never.

Lemma substitute_nil vars : _substitute_variables vars "" = "".
Proof. reflexivity. Qed.

Lemma substitute_match vars s f :
  placeholder_at s = Some f →
  _substitute_variables vars s
  = replace_var vars (group1 f) +:+ _substitute_variables vars (rest f).
Proof.
  intros H. apply sub_match; [by rewrite var_match|].
  by eapply placeholder_at_whole.
Qed.

Lemma substitute_copy vars c s :
  placeholder_at (String c s) = None →
  _substitute_variables vars (String c s)
  = String c (_substitute_variables vars s).
Proof. intros H. apply sub_copy. by rewrite var_match. Qed.

Lemma placeholders_match s f :
  placeholder_at s = Some f →
  placeholders s = Str.strip (group1 f) :: placeholders (rest f).
Proof.
  intros H. unfold placeholders.
  rewrite (findall_match _ _ f); [done|by rewrite var_match|].
  by eapply placeholder_at_whole.
Qed.

Lemma placeholders_copy c s :
  placeholder_at (String c s) = None → placeholders (String c s) = placeholders s.
Proof.
  intros H. unfold placeholders. rewrite findall_copy; [done|].
  by rewrite var_match.
Qed.

Lemma placeholder_at_not_lbrace c s :
  c ≠ lbrace → placeholder_at (String c s) = None.
Proof.
  intros Hc. destruct s as [|d t]; [done|]. cbn [placeholder_at].
  by destruct (Ascii.eqb_spec lbrace c) as [<-|].
Qed.

Lemma placeholder_at_second c d s :
  d ≠ lbrace → placeholder_at (String c (String d s)) = None.
Proof.
  intros Hd. cbn [placeholder_at].
  destruct (Ascii.eqb_spec lbrace d) as [<-|]; [done|]. by rewrite andb_false_r.
Qed.

(** text without an opening brace is copied *)
Lemma substitute_plain vars pre s :
  Str.all (non lbrace) pre = true →
  _substitute_variables vars (pre +:+ s) = pre +:+ _substitute_variables vars s.
Proof.
  induction pre as [|c pre IH]; [done|]. cbn [Str.all].
  intros [Hc Hpre]%andb_true_iff. rewrite !StrFacts.app_cons.
  rewrite substitute_copy, IH; [done..|].
  apply placeholder_at_not_lbrace. intros ->. by vm_compute in Hc.
Qed.

Lemma var_group_head c b : Str.isspace c = false → var_group (String c b) = String c b.
Proof. intros E. cbn. by rewrite E. Qed.

Lemma var_group_lead l x :
  Str.all Str.isspace l = true → x ≠ "" → Str.lstrip x = x →
  var_group (l +:+ x) = x.
Proof.
  intros Hl Hx Hs. induction l as [|c l IH].
  - rewrite StrFacts.app_nil_l. destruct x as [|d x]; [done|].
    apply var_group_head. by eapply StrFacts.lstrip_head.
  - cbn in Hl. apply andb_true_iff in Hl as [Hc Hl].
    rewrite StrFacts.app_cons. cbn [var_group]. rewrite Hc, (IH Hl).
    destruct (l +:+ x) eqn:E; [|done].
    destruct l; [|done]. by rewrite StrFacts.app_nil_l in E.
Qed.

Lemma all_var_group cls b : Str.all cls b = true → Str.all cls (var_group b) = true.
Proof.
  induction b as [|c b IH]; [done|]. intros H. cbn [var_group].
  destruct (_ && _); [|done]. cbn in H. apply andb_true_iff in H as [_ H].
  by apply IH.
Qed.

(** the replacement of a name the scope lacks *)
Lemma replace_var_absent vars g :
  vars !! Str.strip g = None →
  replace_var vars g = "{{" +:+ Str.strip g +:+ "}}".
Proof. intros H. unfold replace_var. by rewrite H. Qed.

Lemma replace_var_present vars g v :
  vars !! Str.strip g = Some v → replace_var vars g = py_str v.
Proof. intros H. unfold replace_var. by rewrite H. Qed.

(** *** Substitution in the empty scope *)

Abbreviation norm := (_substitute_variables ∅).

Lemma replace_var_empty g : replace_var ∅ g = "{{" +:+ Str.strip g +:+ "}}".
Proof. apply replace_var_absent, lookup_empty. Qed.

Lemma norm_head c s : ∃ y, norm (String c s) = String c y.
Proof.
  destruct (placeholder_at (String c s)) as [f|] eqn:E.
  - rewrite (substitute_match _ _ _ E), replace_var_empty.
    apply placeholder_at_inv in E as (b & Hs & _).
    rewrite !StrFacts.app_cons in Hs. injection Hs as -> _.
    rewrite !StrFacts.app_cons. eauto.
  - rewrite (substitute_copy _ _ _ E). eauto.
Qed.

Lemma placeholder_tail_rbrace y : placeholder_tail (String rbrace y) = None.
Proof.
  unfold placeholder_tail. cbn [body_of].
  replace (Ascii.eqb rbrace rbrace) with true by done.
  by destruct (closes _).
Qed.

Lemma placeholder_tail_lbrace t :
  placeholder_tail (String lbrace t) = None → placeholder_tail t = None.
Proof.
  unfold placeholder_tail. cbn [body_of].
  replace (Ascii.eqb rbrace lbrace) with false by done.
  destruct (body_of t) as [b a]. by destruct (closes a).
Qed.

Lemma placeholder_tail_open a b :
  stops (non rbrace) a = true → closes a = None →
  all (non rbrace) b = true → placeholder_tail (b +:+ a) = None.
Proof.
  intros Ha Hc Hb. unfold placeholder_tail.
  by rewrite body_of_app, Hc.
Qed.

Lemma placeholder_at_open a b :
  stops (non rbrace) a = true → closes a = None →
  all (non rbrace) b = true → placeholder_at (b +:+ a) = None.
Proof.
  intros Ha Hc Hb. destruct b as [|c [|d b]].
  - rewrite StrFacts.app_nil_l. destruct a as [|x a]; [done|].
    apply stops_cons_rbrace in Ha as ->. by apply placeholder_at_not_lbrace.
  - rewrite StrFacts.app_cons, StrFacts.app_nil_l. destruct a as [|x a]; [done|].
    apply stops_cons_rbrace in Ha as ->. by apply placeholder_at_second.
  - rewrite !StrFacts.app_cons. cbn [placeholder_at].
    cbn in Hb. apply andb_true_iff in Hb as [_ [_ Hb]%andb_true_iff].
    rewrite placeholder_tail_open by done. by destruct (_ && _).
Qed.

Lemma norm_body a b :
  stops (non rbrace) a = true → closes a = None →
  all (non rbrace) b = true → norm (b +:+ a) = b +:+ norm a.
Proof.
  intros Ha Hc. induction b as [|c b IH]; intros Hb; [done|].
  pose proof (placeholder_at_open _ _ Ha Hc Hb) as Hno.
  cbn in Hb. apply andb_true_iff in Hb as [_ Hb].
  rewrite !StrFacts.app_cons in *. by rewrite substitute_copy, IH.
Qed.

Lemma norm_open_tail a :
  stops (non rbrace) a = true → closes a = None →
  stops (non rbrace) (norm a) = true ∧ closes (norm a) = None.
Proof.
  intros Ha Hc. destruct a as [|x a]; [done|].
  apply stops_cons_rbrace in Ha as ->.
  rewrite substitute_copy by by apply placeholder_at_not_lbrace.
  split; [done|]. destruct a as [|y a]; [done|].
  destruct (norm_head y a) as [z ->]. cbn [closes] in *.
  by destruct (Ascii.eqb rbrace rbrace && Ascii.eqb rbrace y).
Qed.

(** a scan that finds no placeholder at a position finds none there in
    the substituted text either *)
Lemma norm_tail t : placeholder_tail t = None → placeholder_tail (norm t) = None.
Proof.
  intros H. destruct (body_of_spec t) as (Ht & Hb & Ha).
  unfold placeholder_tail in H. destruct (body_of t) as [b a]. cbn in *.
  destruct (closes a) as [r|] eqn:Ec.
  - destruct b as [|c b]; [|done]. apply closes_inv in Ec as ->.
    rewrite StrFacts.app_nil_l in Ht. subst t.
    change ("}}" +:+ r) with (String rbrace (String rbrace r)).
    rewrite substitute_copy by by apply placeholder_at_not_lbrace.
    apply placeholder_tail_rbrace.
  - subst t. rewrite norm_body by done.
    destruct (norm_open_tail a Ha Ec) as [Ha' Hc'].
    by apply placeholder_tail_open.
Qed.

Lemma placeholder_at_tail t :
  placeholder_at (String lbrace (String lbrace t)) = None →
  placeholder_tail t = None.
Proof.
  cbn [placeholder_at]. replace (Ascii.eqb lbrace lbrace) with true by done.
  cbn [andb]. by destruct (placeholder_tail t).
Qed.

Lemma tail_placeholder_at t :
  placeholder_tail t = None →
  placeholder_at (String lbrace (String lbrace t)) = None.
Proof. intros H. cbn [placeholder_at]. rewrite H. by destruct (_ && _). Qed.

Lemma copy_stable c s :
  placeholder_at (String c s) = None →
  placeholder_at (String c (norm s)) = None.
Proof.
  intros H. destruct s as [|d t]; [done|].
  destruct (decide (c = lbrace)) as [->|Hc];
    [|by apply placeholder_at_not_lbrace].
  destruct (norm_head d t) as [y Hy].
  destruct (decide (d = lbrace)) as [->|Hd];
    [|rewrite Hy; by apply placeholder_at_second].
  apply placeholder_at_tail in H.
  rewrite substitute_copy.
  - by apply tail_placeholder_at, norm_tail.
  - destruct t as [|e t]; [done|].
    destruct (decide (e = lbrace)) as [->|He];
      [|by apply placeholder_at_second].
    by apply tail_placeholder_at, placeholder_tail_lbrace.
Qed.

(** the placeholder of the empty name is no placeholder *)
Lemma substitute_empty_placeholder vars x :
  _substitute_variables vars ("{{}}" +:+ x)
  = "{{}}" +:+ _substitute_variables vars x.
Proof.
  change ("{{}}" +:+ x)
    with (String lbrace (String lbrace (String rbrace (String rbrace x)))).
  rewrite substitute_copy
    by (apply tail_placeholder_at, placeholder_tail_rbrace).
  rewrite substitute_copy by by apply placeholder_at_second.
  rewrite substitute_copy by by apply placeholder_at_not_lbrace.
  rewrite substitute_copy by by apply placeholder_at_not_lbrace.
  reflexivity.
Qed.

Lemma absent_match (vars : gmap string pyval) s f :
  placeholder_at s = Some f →
  (∀ n, n ∈ placeholders s → vars !! n = None) →
  vars !! Str.strip (group1 f) = None
  ∧ ∀ n, n ∈ placeholders (rest f) → vars !! n = None.
Proof.
  intros E H. rewrite (placeholders_match _ _ E) in H.
  split; [apply H; left|intros n Hn; apply H; by right].
Qed.

Lemma absent_sub (vars : gmap string pyval) s :
  (∀ n, n ∈ placeholders s → vars !! n = None) →
  _substitute_variables vars s = norm s.
Proof.
  induction s as [|s f E IH|c s E IH] using scan_ind; intros H; [done|..].
  - destruct (absent_match _ _ _ E H) as [Hn Hrest].
    rewrite !(substitute_match _ _ _ E), replace_var_empty.
    by rewrite replace_var_absent, IH.
  - rewrite !(substitute_copy _ _ _ E), IH; [done|].
    by rewrite <-(placeholders_copy _ _ E).
Qed.

Lemma absent_norm (vars : gmap string pyval) s :
  (∀ n, n ∈ placeholders s → vars !! n = None) →
  _substitute_variables vars (norm s) = norm s.
Proof.
  induction s as [|s f E IH|c s E IH] using scan_ind; intros H; [done|..].
  - destruct (absent_match _ _ _ E H) as [Hn Hrest].
    rewrite (substitute_match _ _ _ E), replace_var_empty.
    apply placeholder_at_inv in E as (b & _ & _ & Hb & Hg).
    assert (all (non rbrace) (Str.strip (group1 f)) = true) as Hall.
    { rewrite Hg. by apply StrFacts.all_strip, all_var_group. }
    pose proof (StrFacts.strip_idem (group1 f)) as Hidem.
    destruct (Str.strip (group1 f)) as [|c n] eqn:En.
    + change (("{{" +:+ "" +:+ "}}") +:+ ?x) with ("{{}}" +:+ x).
      by rewrite substitute_empty_placeholder, IH.
    + rewrite !StrFacts.app_assoc.
      rewrite (substitute_match vars _ _
                 (placeholder_at_intro (String c n) _ ltac:(done) Hall)).
      cbn [group1 rest]. rewrite var_group_head by by eapply StrFacts.strip_head.
      rewrite replace_var_absent by by rewrite Hidem.
      by rewrite Hidem, IH, !StrFacts.app_assoc.
  - rewrite (substitute_copy _ _ _ E).
    rewrite substitute_copy by by apply copy_stable.
    rewrite IH; [done|]. by rewrite <-(placeholders_copy _ _ E).
Qed.

Lemma all_space_not_rbrace l :
  all Str.isspace l = true → all (non rbrace) l = true.
Proof.
  induction l as [|c l IH]; [done|]. cbn. intros [Hc Hl]%andb_true_iff.
  by rewrite (space_not_rbrace c Hc), IH.
Qed.

(** a name without whitespace around it, between whitespace *)
Lemma strip_padded l name r :
  all Str.isspace l = true → all Str.isspace r = true →
  Str.strip name = name → Str.strip (l +:+ name +:+ r) = name.
Proof.
  intros Hl Hr Hn. unfold Str.strip. rewrite StrFacts.lstrip_all_space by done.
  destruct name as [|c u]; [by rewrite StrFacts.app_nil_l, StrFacts.rstrip_all_space
                              by by apply StrFacts.all_lstrip|].
  pose proof (StrFacts.strip_head _ _ _ Hn) as Hc.
  rewrite StrFacts.app_cons. cbn [Str.lstrip]. rewrite Hc.
  rewrite <-StrFacts.app_cons, StrFacts.rstrip_app_space by done.
  unfold Str.strip in Hn. cbn [Str.lstrip] in Hn. by rewrite Hc in Hn.
Qed.

Lemma placeholder_padded l name r x :
  all Str.isspace l = true → all Str.isspace r = true →
  name ≠ "" → all (non rbrace) name = true → Str.strip name = name →
  ∃ f, placeholder_at ("{{" +:+ l +:+ name +:+ r +:+ "}}" +:+ x) = Some f
       ∧ Str.strip (group1 f) = name ∧ rest f = x.
Proof.
  intros Hl Hr Hne Hn Hs.
  replace (l +:+ name +:+ r +:+ "}}" +:+ x)
    with ((l +:+ name +:+ r) +:+ "}}" +:+ x) by by rewrite !StrFacts.app_assoc.
  destruct name as [|c u] eqn:En; [done|]. rewrite <-En in *.
  assert (Str.isspace c = false) as Hc.
  { apply (StrFacts.strip_head c name u). by rewrite Hs. }
  eexists. split; [apply placeholder_at_intro|].
  - subst name. destruct l; by rewrite ?StrFacts.app_cons.
  - rewrite !StrFacts.all_app, Hn. by rewrite !all_space_not_rbrace.
  - split; [|done]. cbn [group1].
    rewrite var_group_lead; [| done | subst name; by rewrite StrFacts.app_cons |].
    + rewrite <-(StrFacts.app_nil_l (name +:+ r)). by apply strip_padded.
    + subst name. rewrite StrFacts.app_cons. cbn [Str.lstrip]. by rewrite Hc.
Qed.

Lemma substitute_padded (vars : gmap string pyval) pre l name r post :
  all (non lbrace) pre = true →
  all Str.isspace l = true → all Str.isspace r = true →
  name ≠ "" → all (non rbrace) name = true → Str.strip name = name →
  _substitute_variables vars
    (pre +:+ "{{" +:+ l +:+ name +:+ r +:+ "}}" +:+ post)
  = pre +:+ py_str (default (PStr ("{{" +:+ name +:+ "}}")) (vars !! name))
    +:+ _substitute_variables vars post.
Proof.
  intros Hpre Hl Hr Hne Hn Hs.
  rewrite substitute_plain by done. f_equal.
  destruct (placeholder_padded l name r post Hl Hr Hne Hn Hs)
    as (f & Hf & Hg & Hrest).
  rewrite (substitute_match _ _ _ Hf), Hrest. f_equal.
  unfold replace_var. by rewrite Hg.
Qed.

(** the name looked up is the body of the placeholder, trimmed *)
Lemma strip_var_group b : Str.strip (var_group b) = Str.strip b.
Proof.
  induction b as [|c b IH]; [done|]. cbn [var_group].
  destruct (Str.isspace c) eqn:Hc; [|done]. cbn [andb].
  destruct b as [|d b]; [done|]. cbn [Str.is_empty negb]. rewrite IH.
  unfold Str.strip. cbn [Str.lstrip]. by rewrite Hc.
Qed.

(** a placeholder at the head of the text *)
Lemma substitute_body (vars : gmap string pyval) body post :
  body ≠ "" → all (non rbrace) body = true →
  _substitute_variables vars ("{{" +:+ body +:+ "}}" +:+ post)
  = py_str (default (PStr ("{{" +:+ Str.strip body +:+ "}}"))
              (vars !! Str.strip body))
    +:+ _substitute_variables vars post.
Proof.
  intros Hne Hb.
  rewrite (substitute_match vars _ _ (placeholder_at_intro body post Hne Hb)).
  cbn [group1 rest]. unfold replace_var. by rewrite strip_var_group.
Qed.

(** no placeholder at the head of the text *)
Lemma substitute_no_body (vars : gmap string pyval) c text :
  (∀ body post, body ≠ "" → all (non rbrace) body = true →
     String c text ≠ "{{" +:+ body +:+ "}}" +:+ post) →
  _substitute_variables vars (String c text)
  = String c (_substitute_variables vars text).
Proof.
  intros Hno. apply substitute_copy.
  destruct (placeholder_at (String c text)) as [f|] eqn:E; [|done].
  destruct (placeholder_at_inv _ _ E) as (b & Hs & Hne & Hb & _).
  by destruct (Hno b (rest f) Hne Hb).
Qed.

End Subst.

(** ** The pipeline on examples *)

Module SampleRuns.
Import Sample.

Example run_hi :
  fst <$> (match process_poml world hi_markup "standard" "{}" 0 with
           | Returns r => Some r
           | Raises _ => None
           end) = Some "Hi".
Proof. vm_compute. reflexivity. Qed.

Example normalize_bare_tag :
  _preprocess_poml "<role>Hi</role><br/>"
  = "<poml><role>Hi</role><br></br></poml>".
Proof. vm_compute. reflexivity. Qed.

Example normalize_wrapped :
  _preprocess_poml "  <poml><role>Hi</role></poml>"
  = "  <poml><role>Hi</role></poml>".
Proof. vm_compute. reflexivity. Qed.

Example render_task :
  render (process_children world (start {["t" := PStr "work"]})
            [Elem "role" ∅ (Some "Hi") []; Elem "task" ∅ (Some "Do {{t}}") []])
         "standard"
  = "Hi" +:+ nl +:+ nl +:+ "Do work".
Proof. vm_compute. reflexivity. Qed.

End SampleRuns.

(** ** The Element Processor *)

Module Elements.

Lemma variables_with_raw x pd : variables (with_raw_elements x pd) = variables pd.
Proof. by destruct pd. Qed.

Lemma role_with_raw x pd : role (with_raw_elements x pd) = role pd.
Proof. by destruct pd. Qed.

Lemma documents_with_raw x pd : documents (with_raw_elements x pd) = documents pd.
Proof. by destruct pd. Qed.

(** the tests on a tag that is known *)
Ltac other_tags :=
  repeat
    (let H := fresh "Htest" in
     case_bool_decide as H;
     [exfalso; clear -H;
      first [discriminate H | destruct H as [H|H]; discriminate H]|];
     clear H).

(** an element leaves the scope as it is or binds one name *)
Lemma process_element_scope w pd e :
  variables (_process_element w pd e) = variables pd
  ∨ ∃ name value,
      variables (_process_element w pd e) = <[name := value]> (variables pd).
Proof.
  unfold _process_element. rewrite variables_with_raw.
  repeat case_bool_decide; repeat case_match; destruct pd; cbn; eauto.
Qed.

Lemma process_element_scope_grows w pd e :
  dom (variables pd) ⊆ dom (variables (_process_element w pd e)).
Proof.
  destruct (process_element_scope w pd e) as [->|(n & v & ->)]; [done|].
  rewrite dom_insert. set_solver.
Qed.

Lemma process_children_scope_grows w elements pd :
  dom (variables pd) ⊆ dom (variables (process_children w pd elements)).
Proof.
  revert pd. induction elements as [|e elements IH]; intros pd; [done|].
  etrans; [apply (process_element_scope_grows w pd e)|apply IH].
Qed.

(** an element that does not bind a name leaves its entry alone *)
Lemma process_element_keeps w pd e name :
  ¬ binds name e →
  variables (_process_element w pd e) !! name = variables pd !! name.
Proof.
  intros Hnot. unfold _process_element. rewrite variables_with_raw.
  repeat case_bool_decide; repeat case_match; destruct pd; cbn; try done.
  apply lookup_insert_ne. intros ->. by apply Hnot.
Qed.

Lemma process_children_keeps w elements pd name :
  Forall (λ e, ¬ binds name e) elements →
  variables (process_children w pd elements) !! name = variables pd !! name.
Proof.
  intros H. revert pd. induction H as [|e elements He _ IH]; intros pd; [done|].
  cbn [process_children foldl]. etrans; [apply IH|].
  by apply process_element_keeps.
Qed.

Lemma process_children_app w pd l1 l2 :
  process_children w pd (l1 ++ l2)
  = process_children w (process_children w pd l1) l2.
Proof. apply foldl_app. Qed.

Lemma process_role w pd e t :
  Str.lower (el_tag e) = "role" → el_text e = Some t →
  role (_process_element w pd e)
  = Str.strip (_substitute_variables (variables pd) t).
Proof.
  intros Htag Ht. unfold _process_element. rewrite role_with_raw, Htag, Ht.
  case_bool_decide; [|done]. by destruct pd.
Qed.

(** no import sets the flag of [openpyxl] *)
Lemma openpyxl_never_available (w : World) : available w "openpyxl" = false.
Proof. reflexivity. Qed.

(** output-only examples render to nothing, whatever their numbers *)
Lemma output_only_examples (number : nat → nat) (examples : list example) :
  Forall (λ ex, ex_input ex = "") examples →
  mjoin (imap (λ i ex, example_parts (number i) ex) examples) = [].
Proof.
  intros H. revert number.
  induction H as [|ex examples Hex _ IH]; intros number; [done|].
  cbn. unfold example_parts at 1. rewrite Hex. cbn.
  apply (IH (number ∘ S)).
Qed.

End Elements.

(** ** What each kind of element does with the scope *)

Module Scoping.
Import Elements.

(** a [let] with a name binds it to its [value] attribute or, without
    one, to its text, substituted and trimmed; the value is substituted
    again *)
Lemma process_let_binding w pd e name :
  Str.lower (el_tag e) = "let" → el_attrib e !! "name" = Some name →
  name ≠ "" →
  variables (_process_element w pd e)
  = <[name :=
        PStr (_substitute_variables (variables pd)
                (el_get e "value"
                   (Str.strip (_substitute_variables (variables pd)
                                 (text_or_empty (el_text e))))))]>
      (variables pd).
Proof.
  intros Htag Hname Hne. unfold _process_element.
  rewrite variables_with_raw, Htag, Hname.
  other_tags. case_bool_decide; [|done].
  destruct name; [done|]. by destruct pd.
Qed.

(** a [let] changes the scope and the raw trail only *)
Lemma process_let_fields w pd e :
  Str.lower (el_tag e) = "let" →
  let pd' := _process_element w pd e in
  role pd' = role pd ∧ task pd' = task pd
  ∧ output_format pd' = output_format pd ∧ examples pd' = examples pd
  ∧ documents pd' = documents pd ∧ tables pd' = tables pd
  ∧ images pd' = images pd.
Proof.
  intros Htag. unfold _process_element. rewrite Htag.
  other_tags. case_bool_decide; [|done].
  repeat case_match; by destruct pd.
Qed.

Lemma process_task w pd e :
  Str.lower (el_tag e) = "task" →
  task (_process_element w pd e)
  = Str.strip (_substitute_variables (variables pd)
                 (text_or_empty (el_text e))).
Proof.
  intros Htag. unfold _process_element. rewrite Htag.
  other_tags. case_bool_decide; [|done]. by destruct pd.
Qed.

Lemma process_role_text w pd e :
  Str.lower (el_tag e) = "role" →
  role (_process_element w pd e)
  = Str.strip (_substitute_variables (variables pd)
                 (text_or_empty (el_text e))).
Proof.
  intros Htag. unfold _process_element. rewrite Htag.
  case_bool_decide; [|done]. by destruct pd.
Qed.

Lemma process_output_format w pd e :
  Str.lower (el_tag e) = "output-format"
  ∨ Str.lower (el_tag e) = "output_format" →
  output_format (_process_element w pd e)
  = Str.strip (_substitute_variables (variables pd)
                 (text_or_empty (el_text e))).
Proof.
  intros [Htag|Htag]; unfold _process_element; rewrite Htag;
    other_tags; (case_bool_decide as H; [|by destruct H; auto]);
    by destruct pd.
Qed.

Lemma process_example_in_scope w pd e :
  Str.lower (el_tag e) = "example" →
  examples (_process_element w pd e)
  = examples pd ++ option_list (_process_example (variables pd) e).
Proof.
  intros Htag. unfold _process_element. rewrite Htag.
  other_tags. case_bool_decide; [|done].
  destruct (_process_example _ _); destruct pd; cbn; by rewrite ?app_nil_r.
Qed.

(** a [document] without a source keeps its text as the markup has it *)
Lemma process_document_inline w pd e :
  Str.lower (el_tag e) = "document" → el_get e "src" "" = "" →
  documents (_process_element w pd e)
  = documents pd
    ++ [Document "" (el_get e "title" "Document") (text_or_empty (el_text e))].
Proof.
  intros Htag Hsrc. unfold _process_element.
  rewrite documents_with_raw, Htag.
  other_tags. case_bool_decide; [|done].
  unfold _process_document. cbv zeta. rewrite Hsrc. by destruct pd.
Qed.

End Scoping.

(** * Properties *)

(** ** The Variable Substitutor *)

(** C1, as amended.  Substitution scans the text from left to right, and
    these three cases fix its result for every text.  Where the text reads
    two opening braces, a body that is not empty and has no closing brace,
    and two closing braces, that placeholder is replaced: by [str()] of the
    value the scope has for its name (the body with the whitespace around
    it dropped) or, when the scope lacks the name, by the name between
    double braces; the scan goes on behind the placeholder.  Where the text
    does not read so, its first character is copied and the scan goes on
    with the next one.  The empty text gives the empty text. *)
Theorem substitute_placeholder (vars : gmap string pyval) :
  (∀ body post,
     body ≠ "" → Str.all (Re.non "}"%char) body = true →
     _substitute_variables vars ("{{" +:+ body +:+ "}}" +:+ post)
     = match vars !! Str.strip body with
       | Some v => py_str v
       | None => "{{" +:+ Str.strip body +:+ "}}"
       end +:+ _substitute_variables vars post)
  ∧ (∀ c text,
       (∀ body post,
          body ≠ "" → Str.all (Re.non "}"%char) body = true →
          String c text ≠ "{{" +:+ body +:+ "}}" +:+ post) →
       _substitute_variables vars (String c text)
       = String c (_substitute_variables vars text))
  ∧ _substitute_variables vars "" = "".
Proof.
  split; [|split].
  - intros body post Hne Hb. rewrite Subst.substitute_body by done.
    by destruct (vars !! Str.strip body).
  - apply Subst.substitute_no_body.
  - apply Subst.substitute_nil.
Qed.

Lemma substitute_placeholder_witness :
  _substitute_variables {["x" := PStr "5"]} "a {{x}} b" = "a 5 b"
  ∧ _substitute_variables ∅ "a {{ y }} b" = "a {{y}} b"
  ∧ _substitute_variables {["x" := PStr "5"]} "{ {{x}}" = "{ 5".
Proof.
  assert (∀ (vars : gmap string pyval) c text,
            c ≠ "{"%char ∨ (∃ d t, text = String d t ∧ d ≠ "{"%char) →
            _substitute_variables vars (String c text)
            = String c (_substitute_variables vars text)) as copy.
  { intros vars c text H. apply (substitute_placeholder vars).
    intros body post _ _ E. rewrite !StrFacts.app_cons in E.
    injection E as -> E. destruct H as [H|(d & t & -> & H)]; [done|].
    by injection E as ->. }
  assert (∀ (vars : gmap string pyval) body post,
            body ≠ "" → Str.all (Re.non "}"%char) body = true →
            _substitute_variables vars ("{{" +:+ body +:+ "}}" +:+ post)
            = match vars !! Str.strip body with
              | Some v => py_str v
              | None => "{{" +:+ Str.strip body +:+ "}}"
              end +:+ _substitute_variables vars post) as replace.
  { intros vars. apply (substitute_placeholder vars). }
  assert (∀ vars : gmap string pyval, _substitute_variables vars "" = "")
    as stop.
  { intros vars. apply (substitute_placeholder vars). }
  split; [|split].
  - rewrite 2!copy by (left; discriminate).
    rewrite (replace _ "x" " b" ltac:(discriminate) eq_refl).
    rewrite 2!copy, stop by (left; discriminate). reflexivity.
  - rewrite 2!copy by (left; discriminate).
    rewrite (replace _ " y " " b" ltac:(discriminate) eq_refl).
    rewrite 2!copy, stop by (left; discriminate). reflexivity.
  - rewrite copy by (right; eexists _, _; split; [done|discriminate]).
    rewrite copy by (left; discriminate).
    rewrite (replace _ "x" "" ltac:(discriminate) eq_refl).
    rewrite stop. reflexivity.
Defined.

(** C1 as the specification words it fails: a placeholder with inner
    whitespace whose name the scope lacks does not come back unchanged. *)
Lemma substitute_absent_not_unchanged :
  _substitute_variables ∅ "a {{ y }} b" ≠ "a {{ y }} b".
Proof. vm_compute. discriminate. Qed.

(** C8.  When the scope lacks the name of every placeholder of a text,
    substituting twice gives what substituting once gives. *)
Theorem substitute_idempotent_on_absent (vars : gmap string pyval)
    (text : string) :
  (∀ name, name ∈ placeholders text → vars !! name = None) →
  _substitute_variables vars (_substitute_variables vars text)
  = _substitute_variables vars text.
Proof.
  intros H. rewrite (Subst.absent_sub _ _ H). by apply Subst.absent_norm.
Qed.

Lemma substitute_idempotent_on_absent_witness :
  let vars : gmap string pyval := {["x" := PStr "5"]} in
  let text := "a {{ y }} b {{z}}{{ }}" in
  _substitute_variables vars (_substitute_variables vars text)
  = _substitute_variables vars text.
Proof.
  apply substitute_idempotent_on_absent.
  intros name Hn.
  assert (placeholders "a {{ y }} b {{z}}{{ }}" = ["y"; "z"; ""]) as E
    by (vm_compute; reflexivity).
  rewrite E in Hn.
  apply elem_of_cons in Hn as [->|Hn]; [reflexivity|].
  apply elem_of_cons in Hn as [->|Hn]; [reflexivity|].
  apply elem_of_cons in Hn as [->|Hn]; [reflexivity|].
  by apply elem_of_nil in Hn.
Defined.

(** ** The Markup Normalizer *)

(** C3.  A self-closing tag that has attributes: the normalizer repeats
    the attributes in the closing tag, where the specification has the
    closing tag carry the name alone. *)
Theorem preprocess_repeats_attributes :
  _preprocess_poml "<img src='a.png'/>"
  = "<poml><img src='a.png'></img src='a.png'></poml>"
  ∧ _preprocess_poml "<img src='a.png'/>"
    ≠ "<poml><img src='a.png'></img></poml>".
Proof. split; vm_compute; [reflexivity|discriminate]. Qed.

(** ** The External Content Loader *)

(** C4.  No import sets the flag the spreadsheet loader asks for, so it
    reports the capability as missing whatever the world is: with
    [openpyxl] and [pandas] importable too. *)
Theorem load_excel_file_always_unavailable (w : World) (file_path : string) :
  _load_excel_file w file_path
  = "Excel processing requires openpyxl. Install with: pip install openpyxl".
Proof.
  unfold _load_excel_file. by rewrite Elements.openpyxl_never_available.
Qed.

(** ** The parser and the pipeline entry point *)

(** C5.  When the normalized markup is not a well-formed tree, the
    built-in parser returns the fallback model with its error, and the
    pipeline, given variables that decode to an object and no result of the
    SDK, returns the fallback prompt and the metadata with that error. *)
Theorem parse_error_falls_back (w : World) (poml_template : string) (e : exn) :
  ET_fromstring w (_preprocess_poml poml_template) = Raises e →
  is_class ParseError e = true →
  let err := "POML parsing error: " +:+ exn_msg e in
  (∀ vars,
     _parse_with_fallback w vars poml_template
     = Returns (ParsedData (Some err) "Assistant" "Help the user"
                  [] "" [] [] [] ∅ "error" []))
  ∧ (∀ render_mode variables_json max_length d msg,
       _validate_json_context w variables_json = Returns (true, DDict d, msg) →
       (available w "poml" = false
        ∨ ∃ e', poml_poml w poml_template (DDict d) = Raises e') →
       process_poml w poml_template render_mode variables_json max_length
       = Returns
           ("POML Error: " +:+ err +:+ nl +:+ nl +:+
            "Fallback: Assistant - Help the user",
            json_dumps w None
              (JObject [("error", JString err); ("mode", JString render_mode);
                        ("dependencies", json_flags (dependency_flags w))]))).
Proof.
  intros Hparse Hcls err.
  assert (∀ vars,
            _parse_with_fallback w vars poml_template
            = Returns (ParsedData (Some err) "Assistant" "Help the user"
                         [] "" [] [] [] ∅ "error" [])) as Hfb.
  { intros vars. unfold _parse_with_fallback. by rewrite Hparse, Hcls. }
  split; [exact Hfb|].
  intros render_mode variables_json max_length d msg Hjson Hsdk.
  unfold process_poml. rewrite Hjson. unfold parse. cbn [update_variables].
  assert (match
            (if available w "poml"
             then Some (_parse_with_official_sdk w (d ∪ ∅) poml_template (DDict d))
             else None)
          with
          | Some (Returns parsed) => Returns parsed
          | _ => _parse_with_fallback w (d ∪ ∅) poml_template
          end = _parse_with_fallback w (d ∪ ∅) poml_template) as ->.
  { destruct Hsdk as [->|[e' He']]; [done|].
    destruct (available w "poml"); [|done].
    unfold _parse_with_official_sdk. by rewrite He'. }
  by rewrite Hfb.
Qed.

Lemma parse_error_falls_back_witness :
  process_poml Sample.world "<role>Hi" "standard" "{}" 0
  = Returns
      ("POML Error: POML parsing error: syntax error: line 1, column 0"
       +:+ nl +:+ nl +:+ "Fallback: Assistant - Help the user",
       json_dumps Sample.world None
         (JObject
            [("error",
              JString "POML parsing error: syntax error: line 1, column 0");
             ("mode", JString "standard");
             ("dependencies", json_flags (dependency_flags Sample.world))])).
Proof.
  destruct (parse_error_falls_back Sample.world "<role>Hi"
              (Exn ParseError "syntax error: line 1, column 0")
              eq_refl eq_refl) as [_ H].
  apply (H "standard" "{}" 0%Z ∅ "Valid JSON"); [reflexivity|].
  left. reflexivity.
Defined.




(** ** The Element Processor *)

(** C7.  A table without [src] whose header row has two cells and whose
    body has one row: the content is the header cells joined by [" | "],
    a line of as many dashes as the header line has characters, and the
    cells of the row joined by [" | "]. *)
Theorem table_content_three_lines (w : World)
    (element thead header_row th1 th2 tbody row : Element) :
  el_attrib element !! "src" = None →
  el_find element "thead" = Some thead →
  el_find thead "tr" = Some header_row →
  el_findall header_row "th" = [th1; th2] →
  el_find element "tbody" = Some tbody →
  el_findall tbody "tr" = [row] →
  let header_line := cell_text th1 +:+ " | " +:+ cell_text th2 in
  let dash_line := Str.replicate (String.length header_line) "-"%char in
  let row_line := Str.join " | " (cell_text <$> el_findall row "td") in
  tbl_content (_process_table w element)
  = header_line +:+ nl +:+ dash_line +:+ nl +:+ row_line
  ∧ String.length dash_line = String.length header_line.
Proof.
  intros Hsrc Hthead Htr Hth Htbody Hrows header_line dash_line row_line.
  split; [|apply StrFacts.replicate_length].
  unfold _process_table, el_get. rewrite Hsrc. cbn [default Str.is_empty negb andb].
  rewrite Hthead, Htbody. cbn [mbind option_bind]. rewrite Htr, Hth, Hrows.
  reflexivity.
Qed.

Lemma table_content_three_lines_witness :
  let cell tag text := Elem tag ∅ (Some text) [] in
  let header_row := Elem "tr" ∅ None [cell "th" "Region"; cell "th" "Q1"] in
  let row := Elem "tr" ∅ None [cell "td" "North"; cell "td" "100"] in
  let thead := Elem "thead" ∅ None [header_row] in
  let tbody := Elem "tbody" ∅ None [row] in
  let element := Elem "table" {["title" := "Sales"]} None [thead; tbody] in
  tbl_content (_process_table Sample.world element)
  = "Region | Q1" +:+ nl +:+ "-----------" +:+ nl +:+ "North | 100".
Proof.
  intros cell header_row row thead tbody element.
  exact (proj1 (table_content_three_lines Sample.world element thead
                  header_row (cell "th" "Region") (cell "th" "Q1") tbody row
                  eq_refl eq_refl eq_refl eq_refl eq_refl eq_refl)).
Defined.

(** C9.  The scope of a parse never loses a name.  A [let] element with
    a name binds it, for what is processed after it, to its value
    substituted in the scope of its place (the [value] attribute or,
    without one, the text of the element), and changes nothing that the
    elements before it have stored.  Until another [let] binds the name
    again every later element is processed in a scope that holds the
    binding: there a placeholder of the name is replaced by the bound
    value, and in that scope a later [role], [task], [output-format],
    [example] or [let] element resolves its references.  A later
    [document] element does not: its text is stored as the markup has it,
    references to the binding included. *)
Theorem let_scoping (w : World) (pd : parsed_data)
    (before : list Element) (let_el : Element) (name : string)
    (between : list Element) (ref : Element) :
  Str.lower (el_tag let_el) = "let" →
  el_attrib let_el !! "name" = Some name → name ≠ "" →
  Forall (λ e, ¬ binds name e) between →
  let pd0 := process_children w pd before in
  let bound :=
    _substitute_variables (variables pd0)
      (el_get let_el "value"
         (Str.strip (_substitute_variables (variables pd0)
                       (text_or_empty (el_text let_el))))) in
  let pd_let := process_children w pd (before ++ [let_el]) in
  let pd1 := process_children w pd (before ++ let_el :: between) in
  let pd2 := process_children w pd (before ++ let_el :: between ++ [ref]) in
  let tag := Str.lower (el_tag ref) in
  let text := text_or_empty (el_text ref) in
  let resolved := Str.strip (_substitute_variables (variables pd1) text) in
  (∀ elements,
     dom (variables pd) ⊆ dom (variables (process_children w pd elements)))
  ∧ variables pd_let = <[name := PStr bound]> (variables pd0)
  ∧ (role pd_let = role pd0 ∧ task pd_let = task pd0
     ∧ output_format pd_let = output_format pd0
     ∧ examples pd_let = examples pd0 ∧ documents pd_let = documents pd0
     ∧ tables pd_let = tables pd0 ∧ images pd_let = images pd0)
  ∧ variables pd1 !! name = Some (PStr bound)
  ∧ (∀ body post,
       Str.strip body = name → Str.all (Re.non "}"%char) body = true →
       _substitute_variables (variables pd1) ("{{" +:+ body +:+ "}}" +:+ post)
       = bound +:+ _substitute_variables (variables pd1) post)
  ∧ (tag = "role" → role pd2 = resolved)
  ∧ (tag = "task" → task pd2 = resolved)
  ∧ (tag = "output-format" ∨ tag = "output_format" →
     output_format pd2 = resolved)
  ∧ (tag = "example" →
     examples pd2
     = examples pd1 ++ option_list (_process_example (variables pd1) ref))
  ∧ (tag = "let" →
     ∀ name', el_attrib ref !! "name" = Some name' → name' ≠ "" →
     variables pd2
     = <[name' := PStr (_substitute_variables (variables pd1)
                          (el_get ref "value" resolved))]> (variables pd1))
  ∧ (tag = "document" → el_get ref "src" "" = "" →
     documents pd2
     = documents pd1 ++ [Document "" (el_get ref "title" "Document") text]).
Proof.
  intros Htag Hname Hne Hbetween pd0 bound pd_let pd1 pd2 tag text resolved.
  assert (pd_let = _process_element w pd0 let_el) as Elet
    by apply Elements.process_children_app.
  assert (pd1 = process_children w pd_let between) as E1.
  { unfold pd1, pd_let.
    by rewrite <-Elements.process_children_app, <-app_assoc. }
  assert (pd2 = _process_element w pd1 ref) as E2.
  { unfold pd2, pd1.
    change (let_el :: between ++ [ref]) with ((let_el :: between) ++ [ref]).
    by rewrite app_assoc, Elements.process_children_app. }
  assert (variables pd_let = <[name := PStr bound]> (variables pd0)) as Hlet.
  { rewrite Elet. by apply Scoping.process_let_binding. }
  assert (variables pd1 !! name = Some (PStr bound)) as Hbound.
  { rewrite E1, Elements.process_children_keeps, Hlet by done.
    apply lookup_insert_eq. }
  split; [intros elements; apply Elements.process_children_scope_grows|].
  split; [done|].
  split; [rewrite Elet; by apply Scoping.process_let_fields|].
  split; [done|].
  split.
  { intros body post Hbody Hclosed.
    rewrite Subst.substitute_body, Hbody, Hbound; [done| |done].
    intros ->. by apply Hne. }
  rewrite E2. repeat split.
  - apply Scoping.process_role_text.
  - apply Scoping.process_task.
  - apply Scoping.process_output_format.
  - apply Scoping.process_example_in_scope.
  - intros Hl name' Hname' Hne'. by apply Scoping.process_let_binding.
  - apply Scoping.process_document_inline.
Qed.

Lemma let_scoping_witness :
  let pd := Sample.start ∅ in
  let early := Elem "role" ∅ (Some "{{x}}") [] in
  let let_el := Elem "let" {["name" := "x"]} (Some " 5 ") [] in
  let other := Elem "let" {["name" := "y"; "value" := "{{x}}"]} None [] in
  let task_el := Elem "task" ∅ (Some "Do {{ x }}") [] in
  let doc := Elem "document" ∅ (Some "{{x}}") [] in
  task (process_children Sample.world pd [early; let_el; other; task_el])
  = "Do 5"
  ∧ role (process_children Sample.world pd [early; let_el]) = "{{x}}"
  ∧ variables (process_children Sample.world pd [early; let_el; other])
    !! "x" = Some (PStr "5")
  ∧ documents (process_children Sample.world pd [early; let_el; other; doc])
    = [Document "" "Document" "{{x}}"].
Proof.
  intros pd early let_el other task_el doc.
  assert (Forall (λ e, ¬ binds "x" e) [other]) as Hother.
  { repeat constructor. intros [_ H]. discriminate H. }
  destruct (let_scoping Sample.world pd [early] let_el "x" [other] task_el
              eq_refl eq_refl ltac:(discriminate) Hother)
    as (_ & _ & (Hrole & _) & Hbound & _ & _ & Htask & _).
  destruct (let_scoping Sample.world pd [early] let_el "x" [other] doc
              eq_refl eq_refl ltac:(discriminate) Hother)
    as (_ & _ & _ & _ & _ & _ & _ & _ & _ & _ & Hdoc).
  split; [exact (Htask eq_refl)|].
  split; [exact Hrole|].
  split; [exact Hbound|].
  exact (Hdoc eq_refl eq_refl).
Defined.

(** C2.  The content of a [document] element, the cells of a table and the
    attributes of an image are stored as the markup has them, with a
    placeholder whose name the scope holds left in place; [role] on the
    same text and scope stores the value. *)
Theorem document_content_not_substituted (w : World) :
  let pd := Sample.start {["x" := PStr "5"]} in
  let cell tag := Elem tag ∅ (Some "{{x}}") [] in
  documents (_process_element w pd (cell "document"))
  = [Document "" "Document" "{{x}}"]
  ∧ tables
      (_process_element w pd
         (Elem "table" ∅ None
            [Elem "thead" ∅ None [Elem "tr" ∅ None [cell "th"]];
             Elem "tbody" ∅ None [Elem "tr" ∅ None [cell "td"]]]))
    = [Table "Table" "" ["{{x}}"] [["{{x}}"]]
         ("{{x}}" +:+ nl +:+ "-----" +:+ nl +:+ "{{x}}")]
  ∧ images (_process_element w pd (Elem "img" {["alt" := "{{x}}"]} None []))
    = [Image "" "{{x}}" "Image"]
  ∧ role (_process_element w pd (cell "role")) = "5"
  ∧ _substitute_variables (variables pd) "{{x}}" = "5".
Proof. repeat split; vm_compute; reflexivity. Qed.

(** ** The Renderer *)

(** C10.  With a non-empty list of examples the optimized style emits the
    header ["Examples:"] before the blocks of the examples, and examples
    without an input render no block in any style: when every example
    lacks an input, the header stands with no block after it. *)
Theorem examples_header_without_blocks (pd : parsed_data) (style : string) :
  examples pd ≠ [] →
  let optimized := bool_decide (style = "optimized") in
  ∃ blocks,
    render_parts pd style
    = labelled optimized "Role: " (role pd)
      ++ labelled optimized "Task: " (task pd)
      ++ (if optimized then ["Examples:"] else []) ++ blocks
      ++ mjoin (document_parts <$> documents pd)
      ++ mjoin (table_parts <$> tables pd)
      ++ mjoin (image_parts <$> images pd)
      ++ labelled optimized "Output Format: " (output_format pd)
    ∧ (Forall (λ ex, ex_input ex = "") (examples pd) → blocks = []).
Proof.
  intros Hne optimized.
  exists (mjoin (imap (λ i ex, example_parts (S i) ex) (examples pd))).
  split; [|apply Elements.output_only_examples].
  unfold render_parts, examples_section. fold optimized.
  destruct (examples pd); [done|]. cbn [nonempty]. by rewrite <-!app_assoc.
Qed.

Lemma examples_header_without_blocks_witness :
  let example :=
    Elem "example" ∅ None [Elem "output" ∅ (Some "42") []] in
  let pd := process_children Sample.world (Sample.start ∅) [example] in
  examples pd = [Example_ "" "42"]
  ∧ render_parts pd "optimized" = ["Examples:"]
  ∧ render pd "optimized" = "Examples:".
Proof.
  intros example pd. split; [reflexivity|].
  destruct (examples_header_without_blocks pd "optimized"
              ltac:(discriminate)) as (blocks & Hparts & Hblocks).
  rewrite (Hblocks ltac:(repeat constructor)) in Hparts.
  split; [exact Hparts|]. unfold render. rewrite Hparts. reflexivity.
Defined.

(** * Further properties *)

(** ** More on the Variable Substitutor *)

Module SubstMore.
Import Re ReFacts Var VarFacts Subst.
#[local] Arguments Ascii.eqb : simpl never.

(** a text without a closing brace holds no placeholder *)
Lemma substitute_unclosed (vars : gmap string pyval) b :
  all (non rbrace) b = true → _substitute_variables vars b = b.
Proof.
  induction b as [|c b IH]; intros Hb; [done|].
  pose proof (placeholder_at_open "" (String c b) eq_refl eq_refl Hb) as Hno.
  rewrite StrFacts.app_nil_r in Hno.
  cbn in Hb. apply andb_true_iff in Hb as [_ Hb].
  by rewrite substitute_copy, IH.
Qed.

(** substitution reads the scope at the names of the placeholders only *)
Lemma substitute_frame (vars1 vars2 : gmap string pyval) s :
  (∀ n, n ∈ placeholders s → vars1 !! n = vars2 !! n) →
  _substitute_variables vars1 s = _substitute_variables vars2 s.
Proof.
  induction s as [|s f E IH|c s E IH] using scan_ind; intros H; [done|..].
  - rewrite (placeholders_match _ _ E) in H.
    rewrite !(substitute_match _ _ _ E). f_equal.
    + unfold replace_var. rewrite (H (Str.strip (group1 f))); [done|left].
    + apply IH. intros n Hn. apply H. by right.
  - rewrite !(substitute_copy _ _ _ E), IH; [done|].
    by rewrite <-(placeholders_copy _ _ E).
Qed.

Lemma strip_all_space s : all Str.isspace s = true → Str.strip s = "".
Proof.
  intros H. unfold Str.strip.
  apply StrFacts.rstrip_all_space, StrFacts.all_lstrip, H.
Qed.

(** a placeholder whose body is whitespace names the empty key *)
Lemma placeholder_blank ws x :
  ws ≠ "" → all Str.isspace ws = true →
  ∃ f, placeholder_at ("{{" +:+ ws +:+ "}}" +:+ x) = Some f
       ∧ Str.strip (group1 f) = "" ∧ rest f = x.
Proof.
  intros Hne Hws. eexists. split; [apply placeholder_at_intro|].
  - done.
  - by apply all_space_not_rbrace.
  - split; [|done]. cbn [group1]. by apply strip_all_space, all_var_group.
Qed.

End SubstMore.

(** X1.  A text without an opening brace, or without a closing brace,
    holds no placeholder: substitution returns it as it is, whatever the
    scope. *)
Theorem substitute_without_braces (vars : gmap string pyval) (text : string) :
  Str.all (Re.non "{"%char) text = true ∨ Str.all (Re.non "}"%char) text = true →
  _substitute_variables vars text = text.
Proof.
  intros [H|H].
  - pose proof (Subst.substitute_plain vars text "" H) as E.
    by rewrite Subst.substitute_nil, !StrFacts.app_nil_r in E.
  - by apply SubstMore.substitute_unclosed.
Qed.

Lemma substitute_without_braces_witness :
  _substitute_variables {["x" := PStr "5"]} "x = {{x, {{ x" = "x = {{x, {{ x".
Proof.
  apply substitute_without_braces. right. reflexivity.
Defined.

(** X2.  Substitution depends on the scope only through the names of the
    placeholders of the text: two scopes that agree on them give the same
    result. *)
Theorem substitute_reads_placeholders_only (vars1 vars2 : gmap string pyval)
    (text : string) :
  (∀ name, name ∈ placeholders text → vars1 !! name = vars2 !! name) →
  _substitute_variables vars1 text = _substitute_variables vars2 text.
Proof. apply SubstMore.substitute_frame. Qed.

Lemma substitute_reads_placeholders_only_witness :
  _substitute_variables {["x" := PStr "5"; "y" := PStr "6"]} "a {{ x }} b"
  = _substitute_variables {["x" := PStr "5"; "z" := PInt 7]} "a {{ x }} b".
Proof.
  apply substitute_reads_placeholders_only.
  intros name Hn.
  assert (placeholders "a {{ x }} b" = ["x"]) as E by (vm_compute; reflexivity).
  rewrite E in Hn.
  apply elem_of_cons in Hn as [->|Hn]; [reflexivity|].
  by apply elem_of_nil in Hn.
Defined.

(** X3.  Braces around nothing are no placeholder and are copied; braces
    around whitespace alone are a placeholder of the empty name, replaced
    by the value of the key [""] or, without that key, by the bare
    [{{}}]. *)
Theorem substitute_blank_placeholder (vars : gmap string pyval)
    (ws rest : string) :
  Str.all Str.isspace ws = true →
  _substitute_variables vars ("{{" +:+ ws +:+ "}}" +:+ rest)
  = (if Str.is_empty ws then "{{}}"
     else py_str (default (PStr "{{}}") (vars !! "")))
    +:+ _substitute_variables vars rest.
Proof.
  intros Hws. destruct ws as [|c u] eqn:E.
  - apply Subst.substitute_empty_placeholder.
  - rewrite <-E in *. replace (Str.is_empty ws) with false by by subst.
    destruct (SubstMore.placeholder_blank ws rest) as (f & Hf & Hg & Hr);
      [by subst|done|].
    rewrite (Subst.substitute_match _ _ _ Hf), Hr. f_equal.
    unfold replace_var. by rewrite Hg.
Qed.

Lemma substitute_blank_placeholder_witness :
  _substitute_variables {["" := PStr "E"]} "{{  }}{{}}" = "E{{}}".
Proof.
  pose proof (substitute_blank_placeholder {["" := PStr "E"]} "  " "{{}}"
                eq_refl) as H.
  exact H.
Defined.

(** ** More on the Markup Normalizer *)

Module Normalizer.
Import Re ReFacts.
#[local] Arguments Ascii.eqb : simpl never.

Definition langle : ascii := "<"%char.
Definition rangle : ascii := ">"%char.
Definition slash : ascii := "/"%char.

(** the end of [self_closing_pattern], inside the group *)
Definition Kc : string → option found :=
  re_match [GClose; lit slash; lit rangle] true.

(** a repetition followed by a repetition of a wider class *)
Lemma star_loop_absorb cls1 cls2 k g s :
  (∀ c, cls1 c = true → cls2 c = true) →
  star_loop cls1 (star_loop cls2 k g) g s = star_loop cls2 k g s.
Proof.
  intros Hsub. induction s as [|c s IH]; [done|]. cbn [star_loop].
  destruct (cls1 c) eqn:E1; [|done]. rewrite (Hsub c E1), IH.
  by destruct (star_loop cls2 k g s).
Qed.

(** a repetition that has to give one character back *)
Lemma star_loop_back_one cls k g p c s f :
  all cls p = true → cls c = true → stops cls s = true →
  k s = None → k (String c s) = Some f →
  star_loop cls k g (p +:+ String c s) = Some (takes p g f).
Proof.
  intros Hp Hc Hs Hk Hk'. induction p as [|d p IH].
  - rewrite StrFacts.app_nil_l. cbn [star_loop takes]. rewrite Hc.
    destruct s as [|e s]; cbn [star_loop]; [by rewrite Hk|].
    cbn in Hs. apply negb_true_iff in Hs. by rewrite Hs, Hk.
  - cbn in Hp. apply andb_true_iff in Hp as [Hd Hp].
    rewrite StrFacts.app_cons. cbn [star_loop takes]. by rewrite Hd, (IH Hp).
Qed.

Lemma tag_match_unfold c0 c t :
  re_match self_closing_pattern false (String c0 (String c t))
  = if Ascii.eqb langle c0
    then take c0 false <$>
         (if Str.isword c
          then take c true <$>
               star_loop Str.isword (star_loop (non rangle) Kc true) true t
          else None)
    else None.
Proof. reflexivity. Qed.

Lemma word_not_rangle c : Str.isword c = true → non rangle c = true.
Proof.
  intros H. unfold non. destruct (Ascii.eqb_spec rangle c) as [<-|]; [|done].
  by vm_compute in H.
Qed.

Lemma all_word_not_rangle s :
  all Str.isword s = true → all (non rangle) s = true.
Proof.
  induction s as [|c s IH]; [done|]. cbn. intros [Hc Hs]%andb_true_iff.
  by rewrite (word_not_rangle c Hc), IH.
Qed.

(** the match of a self-closing tag: group 1 is all between the angle
    bracket and the slash *)
Lemma tag_match c name attrs rest :
  Str.isword c = true → all Str.isword name = true →
  all (non rangle) attrs = true →
  re_match self_closing_pattern false
    (String langle (String c (name +:+ attrs +:+ "/>" +:+ rest)))
  = Some (Found (String langle (String c (name +:+ attrs +:+ "/>")))
            (String c (name +:+ attrs)) rest).
Proof.
  intros Hc Hname Hattrs. rewrite tag_match_unfold, Hc.
  replace (Ascii.eqb langle langle) with true by done.
  rewrite star_loop_absorb by apply word_not_rangle.
  replace (name +:+ attrs +:+ "/>" +:+ rest)
    with ((name +:+ attrs) +:+ String slash (String rangle rest))
    by by rewrite StrFacts.app_assoc.
  rewrite (star_loop_back_one _ _ _ _ _ _ (Found "/>" "" rest));
    [|by rewrite StrFacts.all_app, all_word_not_rangle, Hattrs|done..].
  rewrite takes_found. cbn. unfold take. cbn.
  by rewrite StrFacts.app_nil_r, !StrFacts.app_assoc.
Qed.

Lemma no_match_not_langle c s :
  c ≠ langle → re_match self_closing_pattern false (String c s) = None.
Proof.
  intros Hc. destruct s as [|d s].
  - cbn. by destruct (Ascii.eqb_spec "<"%char c).
  - rewrite tag_match_unfold. by destruct (Ascii.eqb_spec langle c).
Qed.

(** text without an opening angle bracket is copied *)
Lemma sub_plain repl pre s :
  all (non langle) pre = true →
  Re.sub self_closing_pattern repl (pre +:+ s)
  = pre +:+ Re.sub self_closing_pattern repl s.
Proof.
  induction pre as [|c pre IH]; [done|]. cbn [Str.all].
  intros [Hc Hpre]%andb_true_iff. rewrite !StrFacts.app_cons.
  rewrite sub_copy, IH; [done..|].
  apply no_match_not_langle. intros ->. by vm_compute in Hc.
Qed.

Lemma space_not_langle ws :
  all Str.isspace ws = true → all (non langle) ws = true.
Proof.
  induction ws as [|c ws IH]; [done|]. cbn. intros [Hc Hs]%andb_true_iff.
  rewrite IH by done. unfold non.
  destruct (Ascii.eqb_spec langle c) as [<-|]; [by vm_compute in Hc|done].
Qed.

(** the root tag itself is no self-closing tag *)
Lemma sub_root repl s :
  Re.sub self_closing_pattern repl ("<poml>" +:+ s)
  = "<poml>" +:+ Re.sub self_closing_pattern repl s.
Proof.
  change ("<poml>" +:+ s) with (String langle ("poml>" +:+ s)).
  rewrite sub_copy by reflexivity.
  by rewrite (sub_plain repl "poml>" s).
Qed.

(** *** Matches end in a slash and a closing angle bracket *)

Lemma contains_unfold n c s :
  Str.contains n (String c s)
  = String.prefix n (String c s) || Str.contains n s.
Proof. reflexivity. Qed.

Lemma prefix_cons a p b u :
  String.prefix (String a p) (String b u)
  = if ascii_dec a b then String.prefix p u else false.
Proof. reflexivity. Qed.

Lemma prefix_nil u : String.prefix "" u = true.
Proof. by destruct u. Qed.

Lemma contains_closer_head s :
  Str.contains "/>" (String slash (String rangle s)) = true.
Proof.
  rewrite contains_unfold. unfold slash, rangle.
  change "/>" with (String "/" (String ">" "")). rewrite !prefix_cons.
  destruct (ascii_dec "/" "/"); [|done].
  destruct (ascii_dec ">" ">"); [|done]. by rewrite prefix_nil.
Qed.

Lemma contains_cons n c s :
  Str.contains n s = true → Str.contains n (String c s) = true.
Proof. intros H. rewrite contains_unfold, H. apply orb_true_r. Qed.

Lemma star_loop_closer cls k g :
  (∀ s f, k s = Some f → Str.contains "/>" s = true) →
  ∀ s f, star_loop cls k g s = Some f → Str.contains "/>" s = true.
Proof.
  intros Hk s. induction s as [|c s IH]; intros f; cbn [star_loop];
    [by apply Hk|].
  destruct (cls c); [|by apply Hk].
  destruct (star_loop cls k g s) as [f'|] eqn:E; [|by apply Hk].
  intros _. apply contains_cons. by eapply IH.
Qed.

Lemma match_has_closer r g s f :
  re_match (r ++ [lit slash; lit rangle]) g s = Some f →
  Str.contains "/>" s = true.
Proof.
  revert g s f. induction r as [|a r IH]; intros g s f.
  - intros H. destruct s as [|c1 [|c2 s]]; cbn in H; [done|..].
    + by destruct (Ascii.eqb slash c1).
    + unfold lit in H. destruct (Ascii.eqb_spec slash c1) as [<-|]; [|done].
      destruct (Ascii.eqb_spec rangle c2) as [<-|]; [|done].
      apply contains_closer_head.
  - destruct a as [cls|cls| |]; cbn [app re_match].
    + destruct s as [|c s]; [done|]. destruct (cls c); [|done].
      destruct (re_match _ g s) as [f'|] eqn:E; [|done].
      intros _. apply contains_cons. by eapply IH.
    + apply star_loop_closer. intros s' f'. apply IH.
    + apply IH.
    + apply IH.
Qed.

Lemma self_closing_has_closer s f :
  re_match self_closing_pattern false s = Some f →
  Str.contains "/>" s = true.
Proof.
  apply (match_has_closer
           [lit langle; GOpen; Chr Str.isword; Star Str.isword;
            Star (non rangle); GClose]).
Qed.

Lemma sub_no_closer repl s :
  Str.contains "/>" s = false → Re.sub self_closing_pattern repl s = s.
Proof.
  induction s as [|c s IH]; [done|]. intros H.
  assert (Str.contains "/>" s = false) as Hs.
  { rewrite contains_unfold in H. by apply orb_false_iff in H as [_ H]. }
  rewrite sub_copy, IH; [done..|].
  destruct (re_match self_closing_pattern false (String c s)) eqn:E; [|done].
  apply self_closing_has_closer in E. congruence.
Qed.

Lemma closer_before_root s :
  Str.contains "/>" s = false → Str.contains "/>" (s +:+ "</poml>") = false.
Proof.
  induction s as [|c s IH]; [done|]. intros H.
  rewrite contains_unfold in H. apply orb_false_iff in H as [Hp Hs].
  rewrite StrFacts.app_cons, contains_unfold, (IH Hs), orb_false_r.
  destruct s as [|d s].
  - rewrite StrFacts.app_nil_l.
    change "</poml>" with (String "<" "/poml>"). rewrite !prefix_cons.
    destruct (ascii_dec "/" c); [|done]. by destruct (ascii_dec ">" "<").
  - rewrite StrFacts.app_cons. rewrite !prefix_cons, !prefix_nil in *.
    destruct (ascii_dec "/" c); [|done]. by destruct (ascii_dec ">" d).
Qed.

(** *** Rooted texts *)

Lemma prefix_inv p u : String.prefix p u = true → ∃ r, u = p +:+ r.
Proof.
  revert u. induction p as [|a p IH]; intros u; [by exists u|].
  destruct u as [|b u]; [done|]. rewrite prefix_cons.
  destruct (ascii_dec a b) as [<-|]; [|done].
  intros (r & ->)%IH. by exists r.
Qed.

Lemma prefix_app p r : String.prefix p (p +:+ r) = true.
Proof.
  induction p as [|a p IH]; [apply prefix_nil|].
  rewrite StrFacts.app_cons, prefix_cons. by destruct (ascii_dec a a).
Qed.

Lemma rstrip_split u : ∃ t, u = Str.rstrip u +:+ t.
Proof.
  induction u as [|c u [t IH]]; [by exists ""|]. cbn.
  destruct (Str.isspace c && Str.is_empty (Str.rstrip u)).
  - by exists (String c u).
  - exists t. by rewrite StrFacts.app_cons, <-IH.
Qed.

Lemma lstrip_split u :
  ∃ ws, all Str.isspace ws = true ∧ u = ws +:+ Str.lstrip u.
Proof.
  induction u as [|c u (ws & Hws & IH)]; [by exists ""|]. cbn.
  destruct (Str.isspace c) eqn:E.
  - exists (String c ws). cbn. by rewrite E, Hws, StrFacts.app_cons, <-IH.
  - by exists "".
Qed.

(** a text whose trimmed form starts with the root tag *)
Lemma rooted_split text :
  String.prefix "<poml>" (Str.strip text) = true →
  ∃ ws r, all Str.isspace ws = true ∧ text = ws +:+ "<poml>" +:+ r.
Proof.
  intros (r & Hr)%prefix_inv. unfold Str.strip in Hr.
  destruct (lstrip_split text) as (ws & Hws & Ht).
  destruct (rstrip_split (Str.lstrip text)) as [t Hu].
  exists ws, (r +:+ t). split; [done|].
  by rewrite Ht at 1; rewrite Hu, Hr, !StrFacts.app_assoc.
Qed.

Lemma strip_rooted r : String.prefix "<poml>" (Str.strip ("<poml>" +:+ r)) = true.
Proof.
  unfold Str.strip.
  change ("<poml>" +:+ r)
    with (String "<" (String "p" (String "o" (String "m" (String "l"
            (String ">" r)))))).
  cbn [Str.lstrip]. replace (Str.isspace "<") with false by done.
  rewrite !StrFacts.rstrip_cons by done.
  apply (prefix_app "<poml>" (Str.rstrip r)).
Qed.

End Normalizer.

(** X4.  A text without the two characters [/>] in a row holds no
    self-closing tag: the normalizer returns it as it is when its trimmed
    form starts with the root tag, and wrapped in the root tag
    otherwise. *)
Theorem preprocess_without_self_closing (poml_text : string) :
  Str.contains "/>" poml_text = false →
  _preprocess_poml poml_text
  = if String.prefix "<poml>" (Str.strip poml_text) then poml_text
    else "<poml>" +:+ poml_text +:+ "</poml>".
Proof.
  intros H. unfold _preprocess_poml.
  destruct (String.prefix "<poml>" (Str.strip poml_text)); cbn [negb].
  - by apply Normalizer.sub_no_closer.
  - rewrite Normalizer.sub_root. f_equal.
    by apply Normalizer.sub_no_closer, Normalizer.closer_before_root.
Qed.

Lemma preprocess_without_self_closing_witness :
  _preprocess_poml " <poml><role>a / b</role></poml> "
  = " <poml><role>a / b</role></poml> "
  ∧ _preprocess_poml "<role>Hi</role>" = "<poml><role>Hi</role></poml>".
Proof.
  split.
  - exact (preprocess_without_self_closing
             " <poml><role>a / b</role></poml> " eq_refl).
  - exact (preprocess_without_self_closing "<role>Hi</role>" eq_refl).
Defined.

(** X5.  Whatever the input, the text the normalizer returns starts,
    after leading whitespace, with the root tag. *)
Theorem preprocess_is_rooted (poml_text : string) :
  String.prefix "<poml>" (Str.lstrip (_preprocess_poml poml_text)) = true.
Proof.
  unfold _preprocess_poml.
  destruct (String.prefix "<poml>" (Str.strip poml_text)) eqn:E; cbn [negb].
  - apply Normalizer.rooted_split in E as (ws & r & Hws & ->).
    rewrite Normalizer.sub_plain by by apply Normalizer.space_not_langle.
    rewrite Normalizer.sub_root, StrFacts.lstrip_all_space by done.
    apply (Normalizer.prefix_app "<poml>").
  - rewrite Normalizer.sub_root. apply (Normalizer.prefix_app "<poml>").
Qed.

(** X6.  A self-closing tag that follows text free of angle brackets in a
    rooted document is rewritten into an opening tag and a closing tag
    that both carry all that stood between the angle bracket and the
    slash, attributes included; the normalizer goes on with the text
    after the tag. *)
Theorem preprocess_expands_self_closing
    (pre : string) (c : ascii) (name attrs post : string) :
  Str.all (Re.non "<"%char) pre = true →
  Str.isword c = true → Str.all Str.isword name = true →
  Str.all (Re.non ">"%char) attrs = true →
  let tag := String c name +:+ attrs in
  _preprocess_poml ("<poml>" +:+ pre +:+ "<" +:+ tag +:+ "/>" +:+ post)
  = "<poml>" +:+ pre +:+ "<" +:+ tag +:+ "></" +:+ tag +:+ ">"
    +:+ Re.sub self_closing_pattern expand_self_closing post.
Proof.
  intros Hpre Hc Hname Hattrs tag. unfold _preprocess_poml.
  rewrite Normalizer.strip_rooted. cbn [negb].
  rewrite Normalizer.sub_root, Normalizer.sub_plain by done.
  do 2 f_equal. unfold tag.
  change ("<" +:+ (String c name +:+ attrs) +:+ "/>" +:+ post)
    with (String Normalizer.langle
            (String c ((name +:+ attrs) +:+ "/>" +:+ post))).
  rewrite StrFacts.app_assoc.
  rewrite (ReFacts.sub_match _ _ _ _
             (Normalizer.tag_match c name attrs post Hc Hname Hattrs))
    by done.
  cbn [Re.group1 Re.rest]. unfold expand_self_closing.
  by rewrite (StrFacts.app_cons c name attrs), !StrFacts.app_assoc.
Qed.

Lemma preprocess_expands_self_closing_witness :
  _preprocess_poml "<poml> <br/><let name='x' value='1'/></poml>"
  = "<poml> <br></br>"
    +:+ Re.sub self_closing_pattern expand_self_closing
          "<let name='x' value='1'/></poml>".
Proof.
  exact (preprocess_expands_self_closing " " "b" "r" ""
           "<let name='x' value='1'/></poml>"
           eq_refl eq_refl eq_refl eq_refl).
Defined.

(** ** More on the Element Processor *)

(** the tags [_process_element] has a branch for *)
Definition handled_tags : list string :=
  ["role"; "task"; "output-format"; "output_format"; "example"; "document";
   "table"; "img"; "image"; "let"].

(** [e] is a [let] element with a name that is not empty *)
Definition binds_some (e : Element) : Prop :=
  Str.lower (el_tag e) = "let"
  ∧ ∃ name, el_attrib e !! "name" = Some name ∧ name ≠ "".

(** the entry of the raw trail for an element processed in scope [vars] *)
Definition raw_of (vars : gmap string pyval) (e : Element) : raw_element :=
  Raw (Str.lower (el_tag e))
      (_substitute_variables vars (text_or_empty (el_text e)))
      (el_attrib e) (el_tag <$> el_children e).

Module ElementsMore.
Import Elements.

Lemma examples_with_raw x pd : examples (with_raw_elements x pd) = examples pd.
Proof. by destruct pd. Qed.

Lemma tables_with_raw x pd : tables (with_raw_elements x pd) = tables pd.
Proof. by destruct pd. Qed.

Lemma images_with_raw x pd : images (with_raw_elements x pd) = images pd.
Proof. by destruct pd. Qed.

Lemma raw_with_raw x pd : raw_elements (with_raw_elements x pd) = x.
Proof. by destruct pd. Qed.

(** every element adds its entry to the trail *)
Lemma process_element_raw w pd e :
  raw_elements (_process_element w pd e)
  = raw_elements pd ++ [raw_of (variables pd) e].
Proof.
  unfold _process_element. rewrite raw_with_raw. f_equal.
  repeat case_bool_decide; repeat case_match; by destruct pd.
Qed.

Lemma process_element_documents w pd e :
  documents (_process_element w pd e)
  = documents pd
    ++ (if bool_decide (Str.lower (el_tag e) = "document")
        then [_process_document w e] else []).
Proof.
  unfold _process_element. rewrite documents_with_raw.
  repeat case_bool_decide; repeat case_match; destruct pd; cbn;
    rewrite ?app_nil_r; try done; exfalso; intuition congruence.
Qed.

Lemma process_element_tables w pd e :
  tables (_process_element w pd e)
  = tables pd
    ++ (if bool_decide (Str.lower (el_tag e) = "table")
        then [_process_table w e] else []).
Proof.
  unfold _process_element. rewrite tables_with_raw.
  repeat case_bool_decide; repeat case_match; destruct pd; cbn;
    rewrite ?app_nil_r; try done; exfalso; intuition congruence.
Qed.

Lemma process_element_images w pd e :
  images (_process_element w pd e)
  = images pd
    ++ (if bool_decide (Str.lower (el_tag e) = "img"
                        ∨ Str.lower (el_tag e) = "image")
        then [Image (el_get e "src" "") (el_get e "alt" "")
                (el_get e "title" "Image")]
        else []).
Proof.
  unfold _process_element. rewrite images_with_raw.
  repeat case_bool_decide; repeat case_match; destruct pd; cbn;
    rewrite ?app_nil_r; try done; exfalso; intuition congruence.
Qed.

Lemma process_element_examples w pd e :
  examples (_process_element w pd e)
  = examples pd
    ++ (if bool_decide (Str.lower (el_tag e) = "example")
        then option_list (_process_example (variables pd) e) else []).
Proof.
  unfold _process_element. rewrite examples_with_raw.
  repeat case_bool_decide; repeat case_match; destruct pd; cbn in *;
    rewrite ?app_nil_r; try done; try (exfalso; intuition congruence);
    simplify_eq; try done.
Qed.

Lemma process_example_side vars e ex :
  _process_example vars e = Some ex → ex_input ex ≠ "" ∨ ex_output ex ≠ "".
Proof.
  unfold _process_example. cbv zeta.
  match goal with
  | |- (if ?c then Some ?x else None) = _ → _ =>
      destruct c eqn:E; [|done]; intros [= <-]
  end.
  apply orb_true_iff in E as [E|E]; [left|right]; intros H; by rewrite H in E.
Qed.

End ElementsMore.

(** X7.  Every element that is processed, handled or not, adds one entry
    to the raw trail, in order, under its lower-cased tag. *)
Theorem raw_trail_records_every_element (w : World) (pd : parsed_data)
    (elements : list Element) :
  raw_tag <$> raw_elements (process_children w pd elements)
  = (raw_tag <$> raw_elements pd) ++ ((λ e, Str.lower (el_tag e)) <$> elements).
Proof.
  revert pd. induction elements as [|e elements IH]; intros pd.
  - by rewrite app_nil_r.
  - change (process_children w pd (e :: elements))
      with (process_children w (_process_element w pd e) elements).
    rewrite (IH (_process_element w pd e)).
    rewrite ElementsMore.process_element_raw, fmap_app, <-app_assoc.
    reflexivity.
Qed.

(** X8.  An element whose tag is none of the handled ones changes nothing
    of the model but the raw trail. *)
Theorem unhandled_tag_only_trails (w : World) (pd : parsed_data) (e : Element) :
  Str.lower (el_tag e) ∉ handled_tags →
  _process_element w pd e
  = with_raw_elements (raw_elements pd ++ [raw_of (variables pd) e]) pd.
Proof.
  intros Hnot. unfold _process_element, handled_tags in *.
  repeat case_bool_decide; try done; exfalso; apply Hnot; set_solver.
Qed.

Lemma unhandled_tag_only_trails_witness :
  let pd := Sample.start {["x" := PStr "5"]} in
  let e := Elem "Hint" ∅ (Some "use {{x}}") [Elem "b" ∅ None []] in
  _process_element Sample.world pd e
  = with_raw_elements [Raw "hint" "use 5" ∅ ["b"]] pd.
Proof.
  intros pd e.
  apply (unhandled_tag_only_trails Sample.world pd e).
  vm_compute. set_solver.
Defined.

(** X9.  The model gains one document for each [document] element, one
    table for each [table] element, one image for each [img] or [image]
    element, and at most one example for each [example] element; nothing
    already stored is lost. *)
Theorem model_counts_elements (w : World) (pd : parsed_data)
    (elements : list Element) :
  let tagged (tags : list string) :=
    length (filter (λ e, Str.lower (el_tag e) ∈ tags) elements) in
  let pd' := process_children w pd elements in
  length (documents pd') = length (documents pd) + tagged ["document"]
  ∧ length (tables pd') = length (tables pd) + tagged ["table"]
  ∧ length (images pd') = length (images pd) + tagged ["img"; "image"]
  ∧ length (examples pd') ≤ length (examples pd) + tagged ["example"]
  ∧ documents pd `prefix_of` documents pd'
  ∧ tables pd `prefix_of` tables pd'
  ∧ images pd `prefix_of` images pd'
  ∧ examples pd `prefix_of` examples pd'.
Proof.
  cbv zeta. revert pd.
  induction elements as [|e elements IH]; intros pd.
  - cbn. repeat split; solve [lia | done].
  - change (process_children w pd (e :: elements))
      with (process_children w (_process_element w pd e) elements).
    destruct (IH (_process_element w pd e))
      as (Hd & Ht & Hi & Hx & Pd & Pt & Pi & Px).
    rewrite ElementsMore.process_element_documents in Hd, Pd.
    rewrite ElementsMore.process_element_tables in Ht, Pt.
    rewrite ElementsMore.process_element_images in Hi, Pi.
    rewrite ElementsMore.process_element_examples in Hx, Px.
    rewrite length_app in Hd, Ht, Hi, Hx.
    rewrite !filter_cons.
    repeat split.
    + rewrite Hd. repeat case_bool_decide; repeat case_decide; cbn;
        solve [lia | exfalso; set_solver].
    + rewrite Ht. repeat case_bool_decide; repeat case_decide; cbn;
        solve [lia | exfalso; set_solver].
    + rewrite Hi. repeat case_bool_decide; repeat case_decide; cbn;
        solve [lia | exfalso; set_solver].
    + etrans; [exact Hx|]. clear.
      destruct (decide (Str.lower (el_tag e) = "example")) as [Heq|Hne].
      * rewrite bool_decide_eq_true_2 by done.
        rewrite decide_True by (by apply list_elem_of_singleton).
        destruct (_process_example _ _); cbn; lia.
      * rewrite bool_decide_eq_false_2 by done.
        rewrite decide_False by (by rewrite list_elem_of_singleton).
        cbn. lia.
    + etrans; [|exact Pd]. by apply prefix_app_r.
    + etrans; [|exact Pt]. by apply prefix_app_r.
    + etrans; [|exact Pi]. by apply prefix_app_r.
    + etrans; [|exact Px]. by apply prefix_app_r.
Qed.

(** X10.  Every example the Element Processor stores has an input or an
    output that is not empty. *)
Theorem stored_examples_have_a_side (w : World) (pd : parsed_data)
    (elements : list Element) :
  Forall (λ ex, ex_input ex ≠ "" ∨ ex_output ex ≠ "") (examples pd) →
  Forall (λ ex, ex_input ex ≠ "" ∨ ex_output ex ≠ "")
    (examples (process_children w pd elements)).
Proof.
  revert pd. induction elements as [|e elements IH]; intros pd H; [done|].
  change (process_children w pd (e :: elements))
    with (process_children w (_process_element w pd e) elements).
  apply IH. rewrite ElementsMore.process_element_examples.
  apply Forall_app. split; [done|]. case_bool_decide; [|done].
  destruct (_process_example _ _) as [ex|] eqn:E; [|done].
  apply Forall_singleton. by eapply ElementsMore.process_example_side.
Qed.

Lemma stored_examples_have_a_side_witness :
  let empty := Elem "example" ∅ (Some "   ") [Elem "input" ∅ None []] in
  let full := Elem "example" ∅ None [Elem "o" ∅ (Some " yes ") []] in
  Forall (λ ex, ex_input ex ≠ "" ∨ ex_output ex ≠ "")
    (examples (process_children Sample.world (Sample.start ∅) [empty; full]))
  ∧ examples (process_children Sample.world (Sample.start ∅) [empty; full])
    = [Example_ "" "yes"].
Proof.
  intros empty full. split; [|reflexivity].
  apply stored_examples_have_a_side. constructor.
Defined.

(** X11.  Only a [let] element with a name that is not empty changes the
    scope: a run of other elements leaves it as it was. *)
Theorem scope_changes_only_at_let (w : World) (pd : parsed_data)
    (elements : list Element) :
  Forall (λ e, ¬ binds_some e) elements →
  variables (process_children w pd elements) = variables pd.
Proof.
  intros H. revert pd.
  induction H as [|e elements He _ IH]; intros pd; [done|].
  change (process_children w pd (e :: elements))
    with (process_children w (_process_element w pd e) elements).
  rewrite IH. unfold _process_element.
  rewrite Elements.variables_with_raw.
  repeat case_bool_decide; repeat case_match; destruct pd; cbn; try done.
  exfalso. apply He. split; [done|]. eexists. split; [done|].
  intros ->. done.
Qed.

Lemma scope_changes_only_at_let_witness :
  let elements :=
    [Elem "role" ∅ (Some "Hi") [];
     Elem "let" {["value" := "1"]} None [];
     Elem "let" {["name" := ""; "value" := "1"]} None [];
     Elem "set" {["name" := "x"; "value" := "1"]} None []] in
  variables (process_children Sample.world (Sample.start ∅) elements) = ∅.
Proof.
  intros elements.
  apply (scope_changes_only_at_let Sample.world (Sample.start ∅) elements).
  repeat constructor.
  - intros [H _]. discriminate H.
  - intros [_ (n & H & _)]. discriminate H.
  - intros [_ (n & H & Hn)]. apply Hn. by injection H as <-.
  - intros [H _]. discriminate H.
Defined.

(** ** More on external content *)

(** worlds for the examples below: [Sample.world] with some of its fields
    replaced *)
Module Worlds.

Definition with_files (path_exists : string → bool) (path_ext : string → string)
    (read_text : string → string → outcome string) : World :=
  {| importable := λ m, bool_decide (m ∈ ["pandas"; "openpyxl"]);
     ET_fromstring := ET_fromstring Sample.world;
     json_loads := json_loads Sample.world;
     json_dumps := json_dumps Sample.world;
     validation_error := validation_error Sample.world;
     poml_poml := poml_poml Sample.world;
     path_exists := path_exists;
     path_ext := path_ext;
     read_text := read_text;
     pd_read_csv := pd_read_csv Sample.world;
     pd_read_excel := λ _, Returns "a b";
     csv_rows := csv_rows Sample.world;
     openpyxl_rows := λ _, Returns [[Some "a"; Some "b"]];
     pdf_pages := pdf_pages Sample.world |}.

Definition with_parsers (importable : string → bool)
    (ET_fromstring : string → outcome Element)
    (json_loads : string → outcome decoded)
    (poml_poml : string → decoded → outcome (list sdk_message)) : World :=
  {| importable := importable;
     ET_fromstring := ET_fromstring;
     json_loads := json_loads;
     json_dumps := json_dumps Sample.world;
     validation_error := validation_error Sample.world;
     poml_poml := poml_poml;
     path_exists := path_exists Sample.world;
     path_ext := path_ext Sample.world;
     read_text := read_text Sample.world;
     pd_read_csv := pd_read_csv Sample.world;
     pd_read_excel := pd_read_excel Sample.world;
     csv_rows := csv_rows Sample.world;
     openpyxl_rows := openpyxl_rows Sample.world;
     pdf_pages := pdf_pages Sample.world |}.

End Worlds.

(** X12.  A table whose [src] names an existing spreadsheet file gets the
    text about the missing [openpyxl] as its content, with no headers and
    no rows, whatever is installed. *)
Theorem spreadsheet_table_is_unavailable (w : World) (element : Element)
    (src : string) :
  el_attrib element !! "src" = Some src → src ≠ "" →
  path_exists w src = true →
  Str.lower (path_ext w src) ∈ [".xlsx"; ".xls"] →
  _process_table w element
  = Table (el_get element "title" "Table") src [] []
      "Excel processing requires openpyxl. Install with: pip install openpyxl".
Proof.
  intros Hsrc Hne Hex Hext.
  assert (el_get element "src" "" = src) as Hget
    by (unfold el_get; by rewrite Hsrc).
  unfold _process_table. cbv zeta. rewrite Hget, Hex.
  replace (Str.is_empty src) with false by (by destruct src).
  cbn [negb andb]. unfold _load_table_from_file.
  rewrite (bool_decide_eq_false_2 (Str.lower _ = ".csv"))
    by (intros E; rewrite E in Hext; set_solver).
  rewrite bool_decide_eq_true_2 by done.
  unfold _load_excel_file. by rewrite Elements.openpyxl_never_available.
Qed.

Lemma spreadsheet_table_is_unavailable_witness :
  let w := Worlds.with_files (λ _, true) (λ _, ".XLSX")
             (λ _ _, Returns "") in
  _process_table w (Elem "table" {["src" := "book.XLSX"]} None [])
  = Table "Table" "book.XLSX" [] []
      "Excel processing requires openpyxl. Install with: pip install openpyxl".
Proof.
  intros w.
  refine (spreadsheet_table_is_unavailable w
            (Elem "table" {["src" := "book.XLSX"]} None []) "book.XLSX"
            eq_refl _ eq_refl _); [discriminate|].
  vm_compute. set_solver.
Defined.

(** X13.  A document whose [src] names an existing file that is no PDF:
    when reading it as UTF-8 raises a decoding error the file is read
    again as Latin-1, and any error left becomes the content of the
    document; errors of other kinds are not retried. *)
Theorem document_read_errors_become_content (w : World) (element : Element)
    (src : string) (e : exn) :
  el_attrib element !! "src" = Some src → src ≠ "" →
  path_exists w src = true →
  Str.lower (path_ext w src) ≠ ".pdf" →
  read_text w src "utf-8" = Raises e →
  _process_document w element
  = Document src (el_get element "title" "Document")
      (if is_class UnicodeDecodeError e then
         match read_text w src "latin-1" with
         | Returns s => s
         | Raises e' => "Error loading document: " +:+ exn_msg e'
         end
       else "Error loading document: " +:+ exn_msg e).
Proof.
  intros Hsrc Hne Hex Hext Hread.
  assert (el_get element "src" "" = src) as Hget
    by (unfold el_get; by rewrite Hsrc).
  unfold _process_document. cbv zeta. rewrite Hget, Hex.
  replace (Str.is_empty src) with false by (by destruct src).
  cbn [negb andb]. unfold _load_document_from_file.
  rewrite bool_decide_eq_false_2, Hread by done.
  destruct (is_class UnicodeDecodeError e); [|done].
  by destruct (read_text w _ "latin-1").
Qed.

Lemma document_read_errors_become_content_witness :
  let w := Worlds.with_files (λ _, true) (λ _, ".txt")
             (λ _ enc, if bool_decide (enc = "utf-8")
                       then Raises (Exn UnicodeDecodeError "invalid start byte")
                       else Returns "caf") in
  _process_document w (Elem "document" {["src" := "a.txt"]} (Some "inline") [])
  = Document "a.txt" "Document" "caf".
Proof.
  intros w.
  refine (document_read_errors_become_content w
            (Elem "document" {["src" := "a.txt"]} (Some "inline") []) "a.txt"
            (Exn UnicodeDecodeError "invalid start byte")
            eq_refl _ eq_refl _ eq_refl); discriminate.
Defined.

(** ** More on the parser, the renderer and the pipeline *)

Module PipelineFacts.

Lemma length_substring n s :
  n ≤ String.length s → String.length (String.substring 0 n s) = n.
Proof.
  revert s. induction n as [|n IH]; intros s H.
  - by destruct s.
  - destruct s as [|c s]; cbn in *; [lia|]. rewrite IH; lia.
Qed.

Lemma render_parts_style pd style :
  style ≠ "optimized" → render_parts pd style = render_parts pd "standard".
Proof.
  intros H. unfold render_parts. by rewrite bool_decide_eq_false_2.
Qed.

Lemma sdk_model w self_variables poml_text context pd :
  _parse_with_official_sdk w self_variables poml_text context = Returns pd →
  role pd ≠ "" ∧ task pd ≠ "" ∧ error pd = None
  ∧ examples pd = [] ∧ documents pd = [] ∧ tables pd = [] ∧ images pd = []
  ∧ output_format pd = "" ∧ variables pd = self_variables
  ∧ sdk_used pd = "official".
Proof.
  unfold _parse_with_official_sdk.
  destruct (poml_poml w poml_text context) as [messages|e]; [|done].
  destruct (sdk_roles messages) as [r t]. intros [= <-]. cbn.
  by destruct r, t.
Qed.

Lemma process_element_role_other w pd e :
  Str.lower (el_tag e) ≠ "role" → role (_process_element w pd e) = role pd.
Proof.
  intros H. unfold _process_element. rewrite Elements.role_with_raw.
  repeat case_bool_decide; repeat case_match; by destruct pd.
Qed.

Lemma process_children_role_other w elements pd :
  Forall (λ e, Str.lower (el_tag e) ≠ "role") elements →
  role (process_children w pd elements) = role pd.
Proof.
  intros H. revert pd. induction H as [|e elements He _ IH]; intros pd; [done|].
  change (process_children w pd (e :: elements))
    with (process_children w (_process_element w pd e) elements).
  by rewrite IH, process_element_role_other.
Qed.

Lemma mjoin_nil_parts {A} (f : A → list string) (l : list A) :
  Forall (λ x, f x = []) l → mjoin (f <$> l) = [].
Proof.
  induction 1 as [|x l Hx _ IH]; [done|].
  change (mjoin (f <$> x :: l)) with (f x ++ mjoin (f <$> l)).
  by rewrite Hx, IH.
Qed.

End PipelineFacts.

(** X14.  A model the SDK path returns always has a role and a task that
    are not empty (the defaults fill in), no error, no examples, documents,
    tables or images, and the parser's scope. *)
Theorem sdk_model_has_role_and_task (w : World)
    (self_variables : gmap string pyval) (poml_text : string)
    (context : decoded) (pd : parsed_data) :
  _parse_with_official_sdk w self_variables poml_text context = Returns pd →
  role pd ≠ "" ∧ task pd ≠ "" ∧ error pd = None
  ∧ examples pd = [] ∧ documents pd = [] ∧ tables pd = [] ∧ images pd = []
  ∧ output_format pd = "" ∧ variables pd = self_variables
  ∧ sdk_used pd = "official".
Proof.
  unfold _parse_with_official_sdk.
  destruct (poml_poml w poml_text context) as [messages|e]; [|done].
  destruct (sdk_roles messages) as [r t]. intros [= <-]. cbn.
  by destruct r, t.
Qed.

Lemma sdk_model_has_role_and_task_witness :
  let w := Worlds.with_parsers (λ _, true) (ET_fromstring Sample.world)
             (json_loads Sample.world)
             (λ _ _, Returns [Message "human" "Summarize"; Message "ai" "ok"]) in
  parse w ∅ "<poml/>" (DDict ∅)
  = Returns (ParsedData None "AI Assistant" "Summarize" [] "" [] [] [] ∅
               "official" [])
  ∧ role (ParsedData None "AI Assistant" "Summarize" [] "" [] [] [] ∅
            "official" []) ≠ "".
Proof.
  intros w. split; [reflexivity|].
  apply (sdk_model_has_role_and_task w ∅ "<poml/>" (DDict ∅) _ eq_refl).
Defined.

(** X15.  Blank variables text is the empty object: the pipeline returns
    for it what it returns for a text that decodes to the empty object. *)
Theorem blank_variables_mean_empty_object (w : World)
    (poml_template render_mode blank braces : string) (max_length : Z) :
  Str.strip blank = "" →
  Str.strip braces ≠ "" → json_loads w braces = Returns (DDict ∅) →
  process_poml w poml_template render_mode blank max_length
  = process_poml w poml_template render_mode braces max_length.
Proof.
  intros Hblank Hne Hloads. unfold process_poml, _validate_json_context.
  rewrite Hblank, Hloads. by destruct (Str.strip braces).
Qed.

Lemma blank_variables_mean_empty_object_witness :
  process_poml Sample.world Sample.hi_markup "debug" "  " 0
  = process_poml Sample.world Sample.hi_markup "debug" "{}" 0.
Proof.
  apply blank_variables_mean_empty_object;
    [reflexivity|discriminate|reflexivity].
Defined.

(** X16.  The style is not checked: every style but ["optimized"] gives
    the parts of the standard style, and every style but ["optimized"]
    and ["debug"] gives the standard rendering. *)
Theorem unknown_style_renders_as_standard (pd : parsed_data) (style : string) :
  style ≠ "optimized" →
  render_parts pd style = render_parts pd "standard"
  ∧ (style ≠ "debug" → render pd style = render pd "standard").
Proof.
  intros H. split; [by apply PipelineFacts.render_parts_style|].
  intros Hd. unfold render.
  rewrite PipelineFacts.render_parts_style by done.
  by rewrite bool_decide_eq_false_2.
Qed.

Lemma unknown_style_renders_as_standard_witness :
  let pd := ParsedData None "Hi" "Do" [Example_ "a" "b"] "" [] [] [] ∅
              "fallback" [] in
  render pd "Optimized" = render pd "standard".
Proof.
  intros pd.
  apply (unknown_style_renders_as_standard pd "Optimized");
    discriminate.
Defined.

(** X17.  A model with nothing to show (no role, task or output format,
    no example, and only documents and tables without content and images
    without alt text) has no parts: it renders as the empty text, and in
    debug style as the banner alone. *)
Theorem empty_model_renders_nothing (pd : parsed_data) (style : string) :
  role pd = "" → task pd = "" → output_format pd = "" → examples pd = [] →
  Forall (λ d, doc_content d = "") (documents pd) →
  Forall (λ t, tbl_content t = "") (tables pd) →
  Forall (λ i, img_alt i = "") (images pd) →
  render_parts pd style = []
  ∧ render pd style
    = if bool_decide (style = "debug")
      then nl +:+ nl +:+ "=== DEBUG MODE ===" +:+ nl else "".
Proof.
  intros Hr Ht Ho Hx Hd Htb Hi.
  assert (render_parts pd style = []) as Hparts.
  { unfold render_parts. rewrite Hr, Ht, Ho, Hx. cbn.
    rewrite !PipelineFacts.mjoin_nil_parts; [done|..].
    - eapply Forall_impl; [exact Hi|]. intros i E. unfold image_parts.
      by rewrite E.
    - eapply Forall_impl; [exact Htb|]. intros t E. unfold table_parts.
      by rewrite E.
    - eapply Forall_impl; [exact Hd|]. intros d E. unfold document_parts.
      by rewrite E. }
  split; [done|]. unfold render. rewrite Hparts.
  by case_bool_decide.
Qed.

Lemma empty_model_renders_nothing_witness :
  let pd :=
    process_children Sample.world (Sample.start ∅)
      [Elem "document" {["title" := "T"]} None [];
       Elem "table" ∅ (Some "a | b") [];
       Elem "img" {["src" := "a.png"]} None [];
       Elem "example" ∅ None []] in
  render pd "optimized" = "".
Proof.
  intros pd.
  apply (empty_model_renders_nothing pd "optimized");
    try reflexivity; repeat constructor.
Defined.

(** X18.  An example is numbered by its place in the list of the model,
    counted from 1: examples that render nothing still take a number. *)
Theorem example_numbered_by_position (pd : parsed_data) (style : string)
    (earlier : list example) (ex : example) (later : list example) :
  examples pd = earlier ++ ex :: later →
  ex_input ex ≠ "" →
  let n := str_of_nat (S (length earlier)) in
  let block :=
    if Str.is_empty (ex_output ex)
    then ["Example " +:+ n +:+ ": " +:+ ex_input ex]
    else ["Example " +:+ n +:+ ":"; "Input: " +:+ ex_input ex;
          "Output: " +:+ ex_output ex] in
  ∃ before after, render_parts pd style = before ++ block ++ after.
Proof.
  intros Hex Hin n block.
  assert (example_parts (S (length earlier)) ex = block) as Hblock.
  { unfold example_parts, block, n.
    destruct (ex_input ex); [done|]. by destruct (ex_output ex). }
  unfold render_parts, examples_section. rewrite Hex.
  replace (nonempty (earlier ++ ex :: later)) with true
    by by destruct earlier.
  rewrite imap_app, imap_cons, Nat.add_0_r, join_app.
  match goal with
  | |- context [mjoin (?x :: ?l)] =>
      change (mjoin (x :: l)) with (x ++ mjoin l)
  end.
  rewrite Hblock.
  match goal with
  | |- ∃ _ _, ?a ++ ?b ++ (?c ++ ?d ++ _ ++ ?l) ++ ?r = _ =>
      exists (a ++ b ++ c ++ d), (l ++ r)
  end.
  by rewrite <-!app_assoc.
Qed.

Lemma example_numbered_by_position_witness :
  let pd := ParsedData None "" "" [Example_ "" "x"; Example_ "q" "a"] ""
              [] [] [] ∅ "fallback" [] in
  render pd "standard"
  = "Example 2:" +:+ nl +:+ nl +:+ "Input: q" +:+ nl +:+ nl +:+ "Output: a"
  ∧ ∃ before after,
      render_parts pd "standard"
      = before ++ ["Example 2:"; "Input: q"; "Output: a"] ++ after.
Proof.
  intros pd. split; [reflexivity|].
  apply (example_numbered_by_position pd "standard" [Example_ "" "x"]
           (Example_ "q" "a") [] eq_refl).
  discriminate.
Defined.

(** X19.  On the path without errors and with a positive [max_length]: a
    rendering of at most [max_length] characters is returned whole, a
    longer one is cut to its first [max_length] characters followed by
    three dots, so the prompt returned has up to [max_length + 3]
    characters. *)
Theorem truncated_prompt_length (w : World)
    (poml_template render_mode variables_json : string) (max_length : Z)
    (context : decoded) (msg : string) (pd : parsed_data) :
  _validate_json_context w variables_json = Returns (true, context, msg) →
  parse w ∅ poml_template context = Returns pd →
  error pd = None →
  (0 < max_length)%Z →
  let rendered := render pd render_mode in
  let cap := Z.to_nat max_length in
  ∃ prompt metadata,
    process_poml w poml_template render_mode variables_json max_length
    = Returns (prompt, metadata)
    ∧ prompt = (if decide (String.length rendered ≤ cap) then rendered
                else String.substring 0 cap rendered +:+ "...")
    ∧ String.length prompt
      = if decide (String.length rendered ≤ cap) then String.length rendered
        else cap + 3.
Proof.
  intros Hjson Hparse Herr Hpos rendered cap.
  unfold process_poml. rewrite Hjson, Hparse, Herr.
  fold rendered. eexists _, _. split; [reflexivity|].
  rewrite (bool_decide_eq_true_2 _ Hpos). cbn [andb].
  destruct (decide (String.length rendered ≤ cap)) as [Hle|Hgt].
  - by rewrite bool_decide_eq_false_2 by (unfold cap in Hle; lia).
  - rewrite bool_decide_eq_true_2 by (unfold cap in Hgt; lia).
    split; [done|]. rewrite StrFacts.app_length.
    rewrite PipelineFacts.length_substring by (unfold cap in *; lia).
    reflexivity.
Qed.

Lemma truncated_prompt_length_witness :
  ∃ metadata,
    process_poml Sample.world Sample.hi_markup "optimized" "{}" 6
    = Returns ("Role: ...", metadata).
Proof.
  destruct (truncated_prompt_length Sample.world Sample.hi_markup "optimized"
              "{}" 6 (DDict ∅) "Valid JSON"
              (ParsedData None "Hi" "" [] "" [] [] [] ∅ "fallback"
                 [Raw "role" "Hi" ∅ []])
              eq_refl eq_refl eq_refl eq_refl)
    as (prompt & metadata & Hrun & Hprompt & _).
  exists metadata. rewrite Hrun, Hprompt. reflexivity.
Defined.

(** X20.  The pipeline raises only what it does not catch: an exception
    of [json.loads] that is no [JSONDecodeError], the exception
    [dict.update] raises on decoded variables that are no mapping (reached
    only without [jsonschema]), or an exception of the XML parser that is
    no [ParseError]. *)
Theorem pipeline_raises_only (w : World)
    (poml_template render_mode variables_json : string) (max_length : Z)
    (e : exn) :
  process_poml w poml_template render_mode variables_json max_length
  = Raises e →
  (json_loads w variables_json = Raises e
   ∧ is_class JSONDecodeError e = false)
  ∨ (json_loads w variables_json = Returns (DOther (Raises e))
     ∧ available w "jsonschema" = false)
  ∨ (ET_fromstring w (_preprocess_poml poml_template) = Raises e
     ∧ is_class ParseError e = false).
Proof.
  unfold process_poml, _validate_json_context, parse, _parse_with_fallback.
  destruct (Str.is_empty (Str.strip variables_json)); cbn [negb].
  - destruct (available w "jsonschema"); cbn [update_variables];
      destruct (available w "poml");
      repeat case_match; simplify_eq; intros; simplify_eq;
      right; right; split; congruence.
  - destruct (json_loads w variables_json) as [data|e0] eqn:El.
    + destruct (available w "jsonschema") eqn:Ej.
      * destruct data as [d| |u]; [|done..]. cbn [update_variables].
        destruct (available w "poml");
          repeat case_match; simplify_eq; intros; simplify_eq;
          right; right; split; congruence.
      * destruct data as [d| |[pairs|e1]]; cbn [update_variables];
          try (destruct (available w "poml");
               repeat case_match; simplify_eq; intros; simplify_eq;
               right; right; split; congruence).
        intros [= ->]. right. left. done.
    + destruct (is_class JSONDecodeError e0) eqn:Ec; [done|].
      intros [= ->]. left. done.
Qed.

Lemma pipeline_raises_only_witness :
  let w := Worlds.with_parsers (λ _, false)
             (λ _, Raises (Exn OtherException "surrogates not allowed"))
             (json_loads Sample.world) (poml_poml Sample.world) in
  process_poml w Sample.hi_markup "standard" "{}" 0
  = Raises (Exn OtherException "surrogates not allowed")
  ∧ ET_fromstring w (_preprocess_poml Sample.hi_markup)
    = Raises (Exn OtherException "surrogates not allowed").
Proof.
  intros w. split; [reflexivity|].
  destruct (pipeline_raises_only w Sample.hi_markup "standard" "{}" 0
              (Exn OtherException "surrogates not allowed") eq_refl)
    as [[H _]|[[H _]|[H _]]]; [discriminate H..|exact H].
Defined.

(** X21.  After a parse that ends without error the scope of the model
    holds every name of the caller's context and every name the parser had
    before. *)
Theorem context_names_stay_in_scope (w : World)
    (self_variables d : gmap string pyval) (poml_text : string)
    (pd : parsed_data) :
  parse w self_variables poml_text (DDict d) = Returns pd →
  error pd = None →
  dom d ∪ dom self_variables ⊆ dom (variables pd).
Proof.
  intros Hparse Herr. rewrite <-dom_union_L.
  assert (_parse_with_fallback w (d ∪ self_variables) poml_text = Returns pd
          → dom (d ∪ self_variables) ⊆ dom (variables pd)) as Hfb.
  { unfold _parse_with_fallback.
    destruct (ET_fromstring w _) as [root|e].
    - intros [= <-].
      exact (Elements.process_children_scope_grows w (el_children root)
               (Sample.start (d ∪ self_variables))).
    - destruct (is_class ParseError e); [|done].
      intros [= <-]. discriminate Herr. }
  unfold parse in Hparse. cbn [update_variables] in Hparse.
  cbv zeta in Hparse.
  destruct (available w "poml"); [|by apply Hfb].
  destruct (_parse_with_official_sdk w _ _ _) as [parsed|e] eqn:Esdk;
    [|by apply Hfb].
  injection Hparse as ->.
  apply PipelineFacts.sdk_model in Esdk.
  destruct Esdk as (_ & _ & _ & _ & _ & _ & _ & _ & -> & _). done.
Qed.

Lemma context_names_stay_in_scope_witness :
  let d : gmap string pyval := {["x" := PStr "5"]} in
  ∃ pd, parse Sample.world ∅ Sample.hi_markup (DDict d) = Returns pd
        ∧ dom d ∪ dom (∅ : gmap string pyval) ⊆ dom (variables pd).
Proof.
  intros d. eexists. split; [reflexivity|].
  apply (context_names_stay_in_scope Sample.world ∅ d Sample.hi_markup);
    reflexivity.
Defined.

(** X22.  A table loaded from a CSV file by the built-in reader (no
    [pandas], or its reader raising) has the content of the embedded table
    with the same header cells and the same rows, when the first row of
    the file has a cell; unlike the embedded table it stores no headers
    and no rows. *)
Theorem csv_table_matches_embedded (w : World) (from_file embedded : Element)
    (src : string) (headers : list string) (data_rows : list (list string)) :
  el_attrib from_file !! "src" = Some src → src ≠ "" →
  path_exists w src = true →
  Str.lower (path_ext w src) = ".csv" →
  available w "pandas" = false ∨ (∃ e, pd_read_csv w src = Raises e) →
  csv_rows w src = Returns (headers :: data_rows) →
  headers ≠ [] →
  el_get embedded "src" "" = "" →
  tbl_headers (_process_table w embedded) = headers →
  tbl_rows (_process_table w embedded) = data_rows →
  tbl_content (_process_table w from_file)
  = tbl_content (_process_table w embedded)
  ∧ tbl_headers (_process_table w from_file) = []
  ∧ tbl_rows (_process_table w from_file) = [].
Proof.
  intros Hsrc Hne Hex Hext Hpd Hrows Hh Hemb.
  assert (_load_csv_file w src
          = Str.join nl (Str.join " | " headers
                         :: dashes (Str.join " | " headers)
                         :: (Str.join " | " <$> data_rows))) as Hcsv.
  { unfold _load_csv_file. rewrite Hrows.
    destruct Hpd as [->|[e ->]]; [done|]. by destruct (available w "pandas"). }
  assert (el_get from_file "src" "" = src) as Hget
    by (unfold el_get; by rewrite Hsrc).
  assert (_process_table w from_file
          = Table (el_get from_file "title" "Table") src [] []
              (_load_csv_file w src)) as ->.
  { unfold _process_table. cbv zeta. rewrite Hget, Hex.
    replace (Str.is_empty src) with false by (by destruct src).
    cbn [negb andb]. unfold _load_table_from_file. cbv zeta.
    by rewrite Hext, bool_decide_eq_true_2. }
  cbn [tbl_content tbl_headers tbl_rows]. rewrite Hcsv.
  unfold _process_table. cbv zeta. rewrite Hemb.
  cbn [Str.is_empty negb andb tbl_content tbl_headers tbl_rows].
  intros -> ->. split; [|done].
  destruct headers as [|h headers]; [done|]. reflexivity.
Qed.

Lemma csv_table_matches_embedded_witness :
  let w :=
    {| importable := λ _, true;
       ET_fromstring := ET_fromstring Sample.world;
       json_loads := json_loads Sample.world;
       json_dumps := json_dumps Sample.world;
       validation_error := validation_error Sample.world;
       poml_poml := poml_poml Sample.world;
       path_exists := λ _, true;
       path_ext := λ _, ".CSV";
       read_text := read_text Sample.world;
       pd_read_csv := λ _, Raises (Exn OtherException "tokenizing error");
       pd_read_excel := pd_read_excel Sample.world;
       csv_rows := λ _, Returns [["id"; "name"]; ["1"; "Ann"]];
       openpyxl_rows := openpyxl_rows Sample.world;
       pdf_pages := pdf_pages Sample.world |} in
  let cells tag texts := (λ t, Elem tag ∅ (Some t) []) <$> texts in
  let embedded :=
    Elem "table" ∅ None
      [Elem "thead" ∅ None [Elem "tr" ∅ None (cells "th" ["id"; "name"])];
       Elem "tbody" ∅ None [Elem "tr" ∅ None (cells "td" ["1"; "Ann"])]] in
  tbl_content (_process_table w (Elem "table" {["src" := "t.csv"]} None []))
  = "id | name" +:+ nl +:+ "---------" +:+ nl +:+ "1 | Ann"
  ∧ tbl_content (_process_table w embedded)
    = "id | name" +:+ nl +:+ "---------" +:+ nl +:+ "1 | Ann".
Proof.
  intros w cells embedded.
  destruct (csv_table_matches_embedded w
              (Elem "table" {["src" := "t.csv"]} None []) embedded "t.csv"
              ["id"; "name"] [["1"; "Ann"]]) as (H & _ & _);
    try reflexivity; try discriminate.
  { right. by eexists. }
  split; [|reflexivity].
  rewrite H. reflexivity.
Defined.

(** X23.  The role of the model is that of the last [role] element: its
    text, substituted in the scope of its time and trimmed, whatever
    elements that are no [role] follow it. *)
Theorem last_role_wins (w : World) (pd : parsed_data)
    (before : list Element) (e : Element) (text : string)
    (after : list Element) :
  Str.lower (el_tag e) = "role" → el_text e = Some text →
  Forall (λ e', Str.lower (el_tag e') ≠ "role") after →
  role (process_children w pd (before ++ e :: after))
  = Str.strip
      (_substitute_variables (variables (process_children w pd before)) text).
Proof.
  intros Htag Htext Hafter.
  rewrite Elements.process_children_app.
  change (process_children w ?p (e :: after))
    with (process_children w (_process_element w p e) after).
  rewrite PipelineFacts.process_children_role_other by done.
  by apply Elements.process_role.
Qed.

Lemma last_role_wins_witness :
  role (process_children Sample.world (Sample.start ∅)
          [Elem "role" ∅ (Some "first") [];
           Elem "let" {["name" := "x"; "value" := "2"]} None [];
           Elem "ROLE" ∅ (Some " second {{x}} ") [];
           Elem "task" ∅ (Some "t") []])
  = "second 2".
Proof.
  etrans.
  - apply (last_role_wins Sample.world (Sample.start ∅)
             [Elem "role" ∅ (Some "first") [];
              Elem "let" {["name" := "x"; "value" := "2"]} None []]
             (Elem "ROLE" ∅ (Some " second {{x}} ") []) " second {{x}} "
             [Elem "task" ∅ (Some "t") []] eq_refl eq_refl).
    repeat constructor. discriminate.
  - reflexivity.
Defined.
